(** * Wallet service (src/src/modules/wallet/wallet.service.ts)

    Shallow embedding of the ledger engine of the wallet service: the
    [Wallet] and [Transaction] tables, the TypeORM query runner used as a
    store transaction, [transfer], [handleSuccessfulCharge],
    [handleFailedCharge], [handlePaystackWebhook], [initiateDeposit],
    [getBalance] and [getDepositStatus].

    Modelling decisions:
    - monetary values (the decimal [balance] and [amount] columns and the
      JavaScript numbers read from them with [Number]) are exact rationals [Q];
    - the stored [metadata] column is always written by [JSON.stringify] of
      an object, so it is modelled as [None] (null or empty, i.e. falsy) or
      the parsed object, an association list in property order;
    - [Date.now], [new Date().toISOString()] and [crypto.randomBytes] are
      inputs of the operations ([now], [reference], [transferReference]);
    - a query runner transaction is a state monad with exceptions over the
      store; [run_tx] commits the final store on success and restores the
      initial store on an exception (rollback); the ids of the wallet rows
      locked with [pessimistic_write] are recorded in acquisition order. *)

From Stdlib Require Import String List QArith Lqa Bool Arith Lia.
Import ListNotations.
Open Scope string_scope.

(** ** Entities *)

Inductive TransactionType := DEPOSIT | TRANSFER_OUT | TRANSFER_IN.

Inductive TransactionStatus := PENDING | SUCCESS | FAILED.

Definition status_eqb (a b : TransactionStatus) : bool :=
  match a, b with
  | PENDING, PENDING | SUCCESS, SUCCESS | FAILED, FAILED => true
  | _, _ => false
  end.

(** JSON values stored in a metadata object. *)
Inductive MetaValue := MStr (s : string) | MBool (b : bool).

Definition Metadata := list (string * MetaValue).

Record User := { user_id : nat; email : string }.

Record Wallet := {
  wallet_id : nat;
  userId : nat;
  walletNumber : string;
  balance : Q
}.

Record Transaction := {
  txn_id : nat;
  walletId : nat;
  txn_type : TransactionType;
  amount : Q;
  status : TransactionStatus;
  reference : option string;
  recipientWalletNumber : option string;
  senderWalletNumber : option string;
  metadata : option Metadata
}.

Record Store := {
  wallets : list Wallet;
  transactions : list Transaction;
  next_txn_id : nat
}.

(** Exceptions thrown by the service ([TypeError] is a JavaScript runtime
    error, e.g. reading a property of an undefined relation). *)
Inductive HttpError :=
| NotFoundException (msg : string)
| BadRequestException (msg : string)
| TypeError (msg : string).

(** ** Store transactions (the TypeORM query runner) *)

Record TxState := { db : Store; locks : list nat }.

Definition M (A : Type) : Type := TxState -> (HttpError + A) * TxState.

Definition ret {A} (a : A) : M A := fun st => (inr a, st).

Definition bind {A B} (m : M A) (k : A -> M B) : M B :=
  fun st => match m st with
            | (inl e, st') => (inl e, st')
            | (inr a, st') => k a st'
            end.

Definition throw {A} (e : HttpError) : M A := fun st => (inl e, st).

Notation "x <- c1 ;; c2" := (bind c1 (fun x => c2))
  (at level 61, c1 at next level, right associativity).
Notation "c1 ;; c2" := (bind c1 (fun _ => c2))
  (at level 61, right associativity).

Record TxResult (A : Type) := {
  outcome : HttpError + A;
  committed : Store;
  lock_trace : list nat
}.
Arguments outcome {A}.
Arguments committed {A}.
Arguments lock_trace {A}.

(** [startTransaction]; body; [commitTransaction] or, in the catch block,
    [rollbackTransaction] and rethrow. *)
Definition run_tx {A} (body : M A) (s : Store) : TxResult A :=
  match body {| db := s; locks := [] |} with
  | (inl e, st) => {| outcome := inl e; committed := s; lock_trace := locks st |}
  | (inr a, st) => {| outcome := inr a; committed := db st; lock_trace := locks st |}
  end.

(** *** Repository operations *)

Definition find_wallet_by_user (u : nat) (ws : list Wallet) : option Wallet :=
  find (fun w => Nat.eqb (userId w) u) ws.

Definition find_wallet_by_number (n : string) (ws : list Wallet) : option Wallet :=
  find (fun w => String.eqb (walletNumber w) n) ws.

Definition find_wallet_by_id (i : nat) (ws : list Wallet) : option Wallet :=
  find (fun w => Nat.eqb (wallet_id w) i) ws.

Definition find_txn_by_reference (r : string) (ts : list Transaction)
  : option Transaction :=
  find (fun t => match reference t with
                 | Some r' => String.eqb r' r
                 | None => false
                 end) ts.

(** [findOne(Wallet, { where, lock: { mode: 'pessimistic_write' } })]: the
    found row is locked until the end of the store transaction. *)
Definition lock_row (w : option Wallet) : M (option Wallet) :=
  fun st => match w with
            | Some w' => (inr w, {| db := db st; locks := locks st ++ [wallet_id w'] |})
            | None => (inr w, st)
            end.

Definition findOne_wallet_by_user_locked (u : nat) : M (option Wallet) :=
  fun st => lock_row (find_wallet_by_user u (wallets (db st))) st.

Definition findOne_wallet_by_number_locked (n : string) : M (option Wallet) :=
  fun st => lock_row (find_wallet_by_number n (wallets (db st))) st.

Definition findOne_txn_by_reference (r : string) : M (option Transaction) :=
  fun st => (inr (find_txn_by_reference r (transactions (db st))), st).

Definition set_wallets (s : Store) (ws : list Wallet) : Store :=
  {| wallets := ws; transactions := transactions s; next_txn_id := next_txn_id s |}.

Definition set_transactions (s : Store) (ts : list Transaction) (n : nat) : Store :=
  {| wallets := wallets s; transactions := ts; next_txn_id := n |}.

(** [save(Wallet, w)]: update the row with [w]'s primary key, insert it when
    there is none. *)
Definition upsert_wallet (w : Wallet) (ws : list Wallet) : list Wallet :=
  if existsb (fun w' => Nat.eqb (wallet_id w') (wallet_id w)) ws
  then map (fun w' => if Nat.eqb (wallet_id w') (wallet_id w) then w else w') ws
  else ws ++ [w].

Definition save_wallet (w : Wallet) : M unit :=
  fun st => (inr tt, {| db := set_wallets (db st) (upsert_wallet w (wallets (db st)));
                        locks := locks st |}).

(** [save(Transaction, t)] for a loaded entity: update by primary key. *)
Definition upsert_txn (t : Transaction) (ts : list Transaction) : list Transaction :=
  if existsb (fun t' => Nat.eqb (txn_id t') (txn_id t)) ts
  then map (fun t' => if Nat.eqb (txn_id t') (txn_id t) then t else t') ts
  else ts ++ [t].

Definition save_txn (t : Transaction) : M unit :=
  fun st => (inr tt, {| db := set_transactions (db st)
                                (upsert_txn t (transactions (db st)))
                                (next_txn_id (db st));
                        locks := locks st |}).

(** An entity built with [create(Transaction, {...})], before the store
    assigns its generated primary key. *)
Record NewTransaction := {
  n_walletId : nat;
  n_type : TransactionType;
  n_amount : Q;
  n_status : TransactionStatus;
  n_reference : option string;
  n_recipientWalletNumber : option string;
  n_senderWalletNumber : option string;
  n_metadata : option Metadata
}.

Definition with_id (i : nat) (n : NewTransaction) : Transaction :=
  {| txn_id := i; walletId := n_walletId n; txn_type := n_type n;
     amount := n_amount n; status := n_status n; reference := n_reference n;
     recipientWalletNumber := n_recipientWalletNumber n;
     senderWalletNumber := n_senderWalletNumber n; metadata := n_metadata n |}.

Fixpoint insert_new (i : nat) (ns : list NewTransaction) : list Transaction :=
  match ns with
  | [] => []
  | n :: ns' => with_id i n :: insert_new (S i) ns'
  end.

Definition insert_txns_store (ns : list NewTransaction) (s : Store) : Store :=
  set_transactions s (transactions s ++ insert_new (next_txn_id s) ns)
                   (next_txn_id s + length ns).

(** [save(Transaction, [t1, t2, ...])] for new entities. *)
Definition insert_txns (ns : list NewTransaction) : M unit :=
  fun st => (inr tt, {| db := insert_txns_store ns (db st); locks := locks st |}).

(** ** Transfer *)

Record TransferDto := { wallet_number : string; transfer_amount : Q }.

Definition Qltb (a b : Q) : bool := negb (Qle_bool b a).

Definition with_balance (w : Wallet) (b : Q) : Wallet :=
  {| wallet_id := wallet_id w; userId := userId w;
     walletNumber := walletNumber w; balance := b |}.

Definition transfer_body (user : User) (dto : TransferDto)
  (transferReference : string) : M (string * string) :=
  senderWallet_opt <- findOne_wallet_by_user_locked (user_id user) ;;
  match senderWallet_opt with
  | None => throw (NotFoundException "Sender wallet not found")
  | Some senderWallet =>
    recipientWallet_opt <- findOne_wallet_by_number_locked (wallet_number dto) ;;
    match recipientWallet_opt with
    | None => throw (NotFoundException "Recipient wallet not found")
    | Some recipientWallet =>
      if Nat.eqb (wallet_id senderWallet) (wallet_id recipientWallet)
      then throw (BadRequestException "Cannot transfer to yourself")
      else if Qltb (balance senderWallet) (transfer_amount dto)
      then throw (BadRequestException "Insufficient balance")
      else
        let senderWallet' :=
          with_balance senderWallet (balance senderWallet - transfer_amount dto) in
        save_wallet senderWallet' ;;
        let recipientWallet' :=
          with_balance recipientWallet (balance recipientWallet + transfer_amount dto) in
        save_wallet recipientWallet' ;;
        (* [transferReference] is generated here and used by neither entity *)
        let senderTransaction :=
          {| n_walletId := wallet_id senderWallet'; n_type := TRANSFER_OUT;
             n_amount := transfer_amount dto; n_status := SUCCESS;
             n_reference := None;
             n_recipientWalletNumber := Some (walletNumber recipientWallet');
             n_senderWalletNumber := None;
             n_metadata := Some [("transfer_type", MStr "outgoing");
                                 ("recipient_wallet", MStr (walletNumber recipientWallet'));
                                 ("initiated_by", MStr (email user))] |} in
        let recipientTransaction :=
          {| n_walletId := wallet_id recipientWallet'; n_type := TRANSFER_IN;
             n_amount := transfer_amount dto; n_status := SUCCESS;
             n_reference := None;
             n_recipientWalletNumber := None;
             n_senderWalletNumber := Some (walletNumber senderWallet');
             n_metadata := Some [("transfer_type", MStr "incoming");
                                 ("sender_wallet", MStr (walletNumber senderWallet'));
                                 ("sender_email", MStr (email user))] |} in
        insert_txns [senderTransaction; recipientTransaction] ;;
        ret ("success", "Transfer completed successfully")
    end
  end.

Definition transfer (s : Store) (user : User) (dto : TransferDto)
  (transferReference : string) : TxResult (string * string) :=
  if Qltb (transfer_amount dto) 100
  then {| outcome := inl (BadRequestException "Minimum transfer amount is ₦100");
          committed := s; lock_trace := [] |}
  else run_tx (transfer_body user dto transferReference) s.

(** ** Webhook reconciliation *)

(** [metadata.k = v] on a parsed JSON object: an existing property keeps its
    position, a new one is appended. *)
Fixpoint set_key (k : string) (v : MetaValue) (m : Metadata) : Metadata :=
  match m with
  | [] => [(k, v)]
  | (k', v') :: m' => if String.eqb k' k then (k, v) :: m' else (k', v') :: set_key k v m'
  end.

Fixpoint remove_key (k : string) (m : Metadata) : Metadata :=
  match m with
  | [] => []
  | (k', v') :: m' => if String.eqb k' k then remove_key k m' else (k', v') :: remove_key k m'
  end.

(** [metadata.k = x] followed by [JSON.stringify]: a property set to
    [undefined] is dropped from the stored text. *)
Definition assign_opt (k : string) (v : option MetaValue) (m : Metadata) : Metadata :=
  match v with
  | Some v' => set_key k v' m
  | None => remove_key k m
  end.

(** [transaction.metadata ? JSON.parse(transaction.metadata) : {}] *)
Definition parse_metadata (m : option Metadata) : Metadata :=
  match m with Some m' => m' | None => [] end.

Record ChargeData := {
  data_reference : string;
  data_amount : Q;
  gateway_response : option string
}.

Record WebhookPayload := { event : string; data : ChargeData }.

(** [payload.data?.gateway_response || 'success'] *)
Definition response_or_success (g : option string) : string :=
  match g with
  | Some s => if String.eqb s "" then "success" else s
  | None => "success"
  end.

Definition with_status_metadata (t : Transaction) (st : TransactionStatus)
  (m : Metadata) : Transaction :=
  {| txn_id := txn_id t; walletId := walletId t; txn_type := txn_type t;
     amount := amount t; status := st; reference := reference t;
     recipientWalletNumber := recipientWalletNumber t;
     senderWalletNumber := senderWalletNumber t; metadata := Some m |}.

(** [findOne(Transaction, { where: { reference }, relations: ['wallet'] })] *)
Definition findOne_txn_with_wallet (r : string)
  : M (option (Transaction * option Wallet)) :=
  fun st =>
    (inr (match find_txn_by_reference r (transactions (db st)) with
          | Some t => Some (t, find_wallet_by_id (walletId t) (wallets (db st)))
          | None => None
          end), st).

Definition success_metadata (payload : WebhookPayload) (now : string)
  (m : option Metadata) : Metadata :=
  let md := parse_metadata m in
  let md := set_key "webhook_received" (MBool true) md in
  let md := set_key "success_time" (MStr now) md in
  set_key "paystack_response" (MStr (response_or_success (gateway_response (data payload)))) md.

Definition handleSuccessfulCharge_body (payload : WebhookPayload) (now : string)
  : M unit :=
  let r := data_reference (data payload) in
  found <- findOne_txn_with_wallet r ;;
  match found with
  | None => throw (NotFoundException ("Transaction with reference " ++ r ++ " not found"))
  | Some (transaction, wallet_rel) =>
    if status_eqb (status transaction) SUCCESS then ret tt
    else
      let transaction' :=
        with_status_metadata transaction SUCCESS
          (success_metadata payload now (metadata transaction)) in
      save_txn transaction' ;;
      match wallet_rel with
      | None => throw (TypeError "Cannot read properties of null (reading 'balance')")
      | Some wallet =>
        let amountInNaira := data_amount (data payload) / 100 in
        save_wallet (with_balance wallet (balance wallet + amountInNaira))
      end
  end.

Definition handleSuccessfulCharge (s : Store) (payload : WebhookPayload)
  (now : string) : TxResult unit :=
  run_tx (handleSuccessfulCharge_body payload now) s.

Definition failure_metadata (payload : WebhookPayload) (now : string)
  (m : option Metadata) : Metadata :=
  let md := parse_metadata m in
  let md := assign_opt "failure_reason"
              (option_map MStr (gateway_response (data payload))) md in
  let md := set_key "failure_time" (MStr now) md in
  set_key "webhook_received" (MBool true) md.

Definition handleFailedCharge_body (payload : WebhookPayload) (now : string)
  : M unit :=
  let r := data_reference (data payload) in
  found <- findOne_txn_by_reference r ;;
  match found with
  | None => throw (NotFoundException ("Transaction with reference " ++ r ++ " not found"))
  | Some transaction =>
    if status_eqb (status transaction) FAILED then ret tt
    else
      save_txn (with_status_metadata transaction FAILED
                  (failure_metadata payload now (metadata transaction)))
  end.

Definition handleFailedCharge (s : Store) (payload : WebhookPayload)
  (now : string) : TxResult unit :=
  run_tx (handleFailedCharge_body payload now) s.

Definition handlePaystackWebhook (s : Store) (payload : WebhookPayload)
  (now : string) : TxResult unit :=
  if String.eqb (event payload) "charge.success" then handleSuccessfulCharge s payload now
  else if String.eqb (event payload) "charge.failed" then handleFailedCharge s payload now
  else {| outcome := inr tt; committed := s; lock_trace := [] |}.

(** ** Read paths and deposit initiation *)

Record DepositStatus := {
  ds_reference : option string;
  ds_status : TransactionStatus;
  ds_amount : Q;
  ds_metadata : option Metadata
}.

Definition getDepositStatus (s : Store) (user : User) (r : string)
  : HttpError + DepositStatus :=
  match find_txn_by_reference r (transactions s) with
  | None => inl (NotFoundException "Transaction not found")
  | Some transaction =>
    match find_wallet_by_id (walletId transaction) (wallets s) with
    | None => inl (TypeError "Cannot read properties of null (reading 'userId')")
    | Some w =>
      if negb (Nat.eqb (userId w) (user_id user))
      then inl (BadRequestException "Unauthorized access to transaction")
      else inr {| ds_reference := reference transaction;
                  ds_status := status transaction;
                  ds_amount := amount transaction;
                  ds_metadata := metadata transaction |}
    end
  end.

Definition getBalance (s : Store) (user : User) : HttpError + (Q * string) :=
  match find_wallet_by_user (user_id user) (wallets s) with
  | None => inl (NotFoundException "Wallet not found")
  | Some w => inr (balance w, walletNumber w)
  end.

(** [initiateDeposit]: the pending entry is saved outside any store
    transaction, before the gateway call; [gateway] is the outcome of
    [paystackService.initializeTransaction] (its [data.reference] and
    [data.authorization_url], or the error it throws). *)
Definition initiateDeposit (s : Store) (user : User) (deposit_amount : Q)
  (reference : string) (gateway : HttpError + (string * string))
  : (HttpError + (string * string)) * Store :=
  match find_wallet_by_user (user_id user) (wallets s) with
  | None => (inl (NotFoundException "Wallet not found"), s)
  | Some w =>
    if Qltb deposit_amount 100
    then (inl (BadRequestException "Minimum deposit amount is ₦100"), s)
    else
      let s' := insert_txns_store
                  [{| n_walletId := wallet_id w; n_type := DEPOSIT;
                      n_amount := deposit_amount; n_status := PENDING;
                      n_reference := Some reference;
                      n_recipientWalletNumber := None; n_senderWalletNumber := None;
                      n_metadata := None |}] s in
      (gateway, s')
  end.

(** ** Sequences of operations *)

Inductive Op :=
| OpGetBalance (user : User)
| OpInitiateDeposit (user : User) (deposit_amount : Q) (reference : string)
    (gateway : HttpError + (string * string))
| OpTransfer (user : User) (dto : TransferDto) (transferReference : string)
| OpWebhook (payload : WebhookPayload) (now : string)
| OpGetDepositStatus (user : User) (reference : string).

(** The store committed by one operation. *)
Definition step (s : Store) (op : Op) : Store :=
  match op with
  | OpGetBalance _ | OpGetDepositStatus _ _ => s
  | OpInitiateDeposit u a r g => snd (initiateDeposit s u a r g)
  | OpTransfer u dto tr => committed (transfer s u dto tr)
  | OpWebhook p now => committed (handlePaystackWebhook s p now)
  end.

(** Every committed state along a run, the initial one included. *)
Fixpoint trace (s : Store) (ops : list Op) : list Store :=
  match ops with
  | [] => [s]
  | op :: ops' => s :: trace (step s op) ops'
  end.

Definition balances_nonneg (s : Store) : Prop :=
  Forall (fun w => 0 <= balance w) (wallets s).

(** ** Sample stores *)

Definition w1 : Wallet := {| wallet_id := 1; userId := 10; walletNumber := "W1"; balance := 1000 |}.
Definition w2 : Wallet := {| wallet_id := 2; userId := 20; walletNumber := "W2"; balance := 500 |}.
Definition alice : User := {| user_id := 10; email := "alice@example.com" |}.
Definition bob : User := {| user_id := 20; email := "bob@example.com" |}.
Definition store0 : Store := {| wallets := [w1; w2]; transactions := []; next_txn_id := 0 |}.

Definition wallet_balance (s : Store) (i : nat) : option Q :=
  option_map balance (find_wallet_by_id i (wallets s)).

Definition opt_Qeqb (a b : option Q) : bool :=
  match a, b with
  | Some x, Some y => Qeq_bool x y
  | None, None => true
  | _, _ => false
  end.

(** Spec scenario: W1 = 1000, W2 = 500, transfer 300 from W1 to W2. *)
Example transfer_scenario :
  let r := transfer store0 alice {| wallet_number := "W2"; transfer_amount := 300 |} "TRANSFER_1_ab" in
  outcome r = inr ("success", "Transfer completed successfully")
  /\ opt_Qeqb (wallet_balance (committed r) 1) (Some 700) = true
  /\ opt_Qeqb (wallet_balance (committed r) 2) (Some 800) = true
  /\ length (transactions (committed r)) = 2%nat
  /\ lock_trace r = [1%nat; 2%nat].
Proof. vm_compute. repeat split; reflexivity. Qed.

Example transfer_below_minimum :
  let r := transfer store0 alice {| wallet_number := "W2"; transfer_amount := 50 |} "T" in
  outcome r = inl (BadRequestException "Minimum transfer amount is ₦100")
  /\ committed r = store0.
Proof. split; reflexivity. Qed.

(** ** Lemmas on the repository operations *)

Lemma find_map_replace_wallet (j : nat) (w : Wallet) (ws : list Wallet) :
  find_wallet_by_id j
    (map (fun w' => if Nat.eqb (wallet_id w') (wallet_id w) then w else w') ws)
  = if Nat.eqb (wallet_id w) j
    then (if existsb (fun w' => Nat.eqb (wallet_id w') (wallet_id w)) ws
          then Some w else None)
    else find_wallet_by_id j ws.
Proof.
  unfold find_wallet_by_id.
  induction ws as [|w' ws IH]; simpl.
  - destruct (Nat.eqb (wallet_id w) j); reflexivity.
  - destruct (Nat.eqb (wallet_id w') (wallet_id w)) eqn:E1; simpl.
    + apply Nat.eqb_eq in E1.
      destruct (Nat.eqb (wallet_id w) j) eqn:E2; [reflexivity|].
      rewrite E1, E2. exact IH.
    + destruct (Nat.eqb (wallet_id w') j) eqn:E2.
      * apply Nat.eqb_eq in E2. subst j. rewrite Nat.eqb_sym, E1. reflexivity.
      * exact IH.
Qed.

Lemma find_upsert_wallet (j : nat) (w : Wallet) (ws : list Wallet) :
  find_wallet_by_id j (upsert_wallet w ws)
  = if Nat.eqb (wallet_id w) j then Some w else find_wallet_by_id j ws.
Proof.
  unfold upsert_wallet.
  destruct (existsb _ ws) eqn:Hex.
  - rewrite find_map_replace_wallet, Hex. reflexivity.
  - unfold find_wallet_by_id.
    induction ws as [|w' ws IH]; simpl in *.
    + destruct (Nat.eqb (wallet_id w) j); reflexivity.
    + apply orb_false_iff in Hex as [H1 H2].
      destruct (Nat.eqb (wallet_id w') j) eqn:E.
      * apply Nat.eqb_eq in E. subst j. rewrite Nat.eqb_sym, H1. reflexivity.
      * exact (IH H2).
Qed.

Lemma upsert_wallet_Forall (P : Wallet -> Prop) (w : Wallet) (ws : list Wallet) :
  P w -> Forall P ws -> Forall P (upsert_wallet w ws).
Proof.
  intros Hw Hws. unfold upsert_wallet.
  destruct (existsb _ ws).
  - apply Forall_map. eapply Forall_impl; [|exact Hws].
    intros w' Hw'. destruct (Nat.eqb _ _); assumption.
  - apply Forall_app. split; [assumption | constructor; [assumption | constructor]].
Qed.

(** Unfolds one run of [transfer] into its sequence of guards. *)
Ltac unfold_transfer :=
  unfold transfer, run_tx, transfer_body, bind, ret, throw,
    findOne_wallet_by_user_locked, findOne_wallet_by_number_locked, lock_row,
    save_wallet, insert_txns, insert_txns_store, set_transactions, set_wallets;
  cbn -[find_wallet_by_user find_wallet_by_number upsert_wallet Qltb].

Ltac tx_simpl := cbn -[find_wallet_by_user find_wallet_by_number upsert_wallet Qltb].

(** The complete effect of [transfer] on the store: either the error is
    rolled back, or both wallet rows and both entries are written. *)
Lemma transfer_cases (s : Store) (u : User) (dto : TransferDto) (tr : string) :
  let r := transfer s u dto tr in
  (exists e, outcome r = inl e /\ committed r = s)
  \/ (exists sw rw,
        Qltb (transfer_amount dto) 100 = false
        /\ find_wallet_by_user (user_id u) (wallets s) = Some sw
        /\ find_wallet_by_number (wallet_number dto) (wallets s) = Some rw
        /\ wallet_id sw <> wallet_id rw
        /\ Qltb (balance sw) (transfer_amount dto) = false
        /\ outcome r = inr ("success", "Transfer completed successfully")
        /\ wallets (committed r)
           = upsert_wallet (with_balance rw (balance rw + transfer_amount dto))
               (upsert_wallet (with_balance sw (balance sw - transfer_amount dto))
                  (wallets s))).
Proof.
  cbv zeta. unfold_transfer.
  destruct (Qltb (transfer_amount dto) 100) eqn:Hmin; [left; eexists; split; reflexivity|].
  destruct (find_wallet_by_user (user_id u) (wallets s)) as [sw|] eqn:Hsw; tx_simpl;
    [|left; eexists; split; reflexivity].
  destruct (find_wallet_by_number (wallet_number dto) (wallets s)) as [rw|] eqn:Hrw; tx_simpl;
    [|left; eexists; split; reflexivity].
  destruct (Nat.eqb (wallet_id sw) (wallet_id rw)) eqn:Hid; tx_simpl;
    [left; eexists; split; reflexivity|].
  destruct (Qltb (balance sw) (transfer_amount dto)) eqn:Hbal; tx_simpl;
    [left; eexists; split; reflexivity|].
  right. exists sw, rw. apply Nat.eqb_neq in Hid.
  repeat split; try assumption; reflexivity.
Qed.

Lemma find_after_two_upserts (sw rw : Wallet) (ws : list Wallet) :
  wallet_id sw <> wallet_id rw ->
  find_wallet_by_id (wallet_id sw) (upsert_wallet rw (upsert_wallet sw ws)) = Some sw
  /\ find_wallet_by_id (wallet_id rw) (upsert_wallet rw (upsert_wallet sw ws)) = Some rw.
Proof.
  intros Hne. rewrite !find_upsert_wallet, !Nat.eqb_refl.
  assert (E : Nat.eqb (wallet_id rw) (wallet_id sw) = false)
    by (apply Nat.eqb_neq; congruence).
  rewrite E. split; reflexivity.
Qed.

(** ** Transfer *)

(** C1 (conservation). A transfer either fails and the committed store is
    the one it started from, or it succeeds and then the sender's row was
    debited by the amount and the recipient's row credited by the same
    amount in one commit, so the sum of the two balances is unchanged: no
    committed store has the sender debited and the recipient not credited. *)
Theorem transfer_conserves_balance (s : Store) (u : User) (dto : TransferDto)
  (tr : string) :
  let r := transfer s u dto tr in
  match outcome r with
  | inl _ => committed r = s
  | inr _ =>
    exists sw rw sw' rw',
      find_wallet_by_user (user_id u) (wallets s) = Some sw
      /\ find_wallet_by_number (wallet_number dto) (wallets s) = Some rw
      /\ wallet_id sw <> wallet_id rw
      /\ find_wallet_by_id (wallet_id sw) (wallets (committed r)) = Some sw'
      /\ find_wallet_by_id (wallet_id rw) (wallets (committed r)) = Some rw'
      /\ balance sw' == balance sw - transfer_amount dto
      /\ balance rw' == balance rw + transfer_amount dto
      /\ balance sw + balance rw == balance sw' + balance rw'
  end.
Proof.
  pose proof (transfer_cases s u dto tr) as H. cbv zeta in *.
  destruct H as [[e [Ho Hc]] | [sw [rw (Hmin & Hsw & Hrw & Hid & Hbal & Ho & Hw)]]];
    rewrite Ho; [exact Hc|].
  set (sw' := with_balance sw (balance sw - transfer_amount dto)).
  set (rw' := with_balance rw (balance rw + transfer_amount dto)).
  exists sw, rw, sw', rw'.
  destruct (find_after_two_upserts sw' rw' (wallets s)) as [H1 H2]; [exact Hid|].
  rewrite Hw. repeat split; try assumption; simpl; try reflexivity. lra.
Qed.

Lemma Qltb_true (a b : Q) : Qltb a b = true <-> a < b.
Proof.
  unfold Qltb. rewrite negb_true_iff. split; intros H.
  - apply Qnot_le_lt. intros Hle. apply Qle_bool_iff in Hle. congruence.
  - destruct (Qle_bool b a) eqn:E; [|reflexivity].
    apply Qle_bool_iff in E. exfalso. apply (Qlt_not_le a b); assumption.
Qed.

Lemma Qltb_false (a b : Q) : Qltb a b = false <-> b <= a.
Proof.
  unfold Qltb. rewrite negb_false_iff. apply Qle_bool_iff.
Qed.

(** C4 (transfer failures). The guards of [transfer], in the order of the
    source: an amount below 100 fails with the minimum-amount error
    (InvalidAmount); then a missing sender wallet and a missing recipient
    wallet fail with [NotFoundException] (NotFound); then equal wallet ids
    fail with "Cannot transfer to yourself" (InvalidOperation); then a
    sender balance below the amount fails with "Insufficient balance"
    (InsufficientFunds). Whenever [transfer] fails, the committed store is
    the initial one: no balance changes and no entry is created. *)
Theorem transfer_failures (s : Store) (u : User) (dto : TransferDto)
  (tr : string) :
  let r := transfer s u dto tr in
  let amt := transfer_amount dto in
  (amt < 100 ->
     outcome r = inl (BadRequestException "Minimum transfer amount is ₦100"))
  /\ (100 <= amt -> find_wallet_by_user (user_id u) (wallets s) = None ->
      outcome r = inl (NotFoundException "Sender wallet not found"))
  /\ (forall sw, 100 <= amt ->
      find_wallet_by_user (user_id u) (wallets s) = Some sw ->
      find_wallet_by_number (wallet_number dto) (wallets s) = None ->
      outcome r = inl (NotFoundException "Recipient wallet not found"))
  /\ (forall sw rw, 100 <= amt ->
      find_wallet_by_user (user_id u) (wallets s) = Some sw ->
      find_wallet_by_number (wallet_number dto) (wallets s) = Some rw ->
      wallet_id sw = wallet_id rw ->
      outcome r = inl (BadRequestException "Cannot transfer to yourself"))
  /\ (forall sw rw, 100 <= amt ->
      find_wallet_by_user (user_id u) (wallets s) = Some sw ->
      find_wallet_by_number (wallet_number dto) (wallets s) = Some rw ->
      wallet_id sw <> wallet_id rw ->
      balance sw < amt ->
      outcome r = inl (BadRequestException "Insufficient balance"))
  /\ (forall e, outcome r = inl e -> committed r = s).
Proof.
  cbv zeta. repeat split.
  - intros Hlt. apply Qltb_true in Hlt. unfold transfer. rewrite Hlt. reflexivity.
  - intros Hge Hsw. apply Qltb_false in Hge. unfold_transfer.
    rewrite Hge, Hsw. reflexivity.
  - intros sw Hge Hsw Hrw. apply Qltb_false in Hge. unfold_transfer.
    rewrite Hge, Hsw. tx_simpl. rewrite Hrw. reflexivity.
  - intros sw rw Hge Hsw Hrw Hid. apply Qltb_false in Hge. unfold_transfer.
    rewrite Hge, Hsw. tx_simpl. rewrite Hrw. tx_simpl.
    rewrite Hid, Nat.eqb_refl. reflexivity.
  - intros sw rw Hge Hsw Hrw Hid Hlt. apply Qltb_false in Hge.
    apply Qltb_true in Hlt. apply Nat.eqb_neq in Hid. unfold_transfer.
    rewrite Hge, Hsw. tx_simpl. rewrite Hrw. tx_simpl.
    rewrite Hid. tx_simpl. rewrite Hlt. reflexivity.
  - intros e He. pose proof (transfer_cases s u dto tr) as H. cbv zeta in H.
    destruct H as [[e' [_ Hc]] | [sw [rw (_ & _ & _ & _ & _ & Ho & _)]]];
      [exact Hc | congruence].
Qed.

(** C7 (transfer entries). A successful transfer appends exactly two
    entries: a [TRANSFER_OUT] on the sender's wallet carrying the
    recipient's wallet number and a [TRANSFER_IN] on the recipient's wallet
    carrying the sender's wallet number, both [SUCCESS]. The generated
    [transferReference] is stored in neither: both entries have no
    reference. A failed transfer creates no entry. *)
Theorem transfer_entries (s : Store) (u : User) (dto : TransferDto)
  (transferReference : string) :
  let r := transfer s u dto transferReference in
  match outcome r with
  | inl _ => transactions (committed r) = transactions s
  | inr _ =>
    exists sw rw t_out t_in,
      find_wallet_by_user (user_id u) (wallets s) = Some sw
      /\ find_wallet_by_number (wallet_number dto) (wallets s) = Some rw
      /\ transactions (committed r) = (transactions s ++ [t_out; t_in])%list
      /\ walletId t_out = wallet_id sw /\ txn_type t_out = TRANSFER_OUT
      /\ status t_out = SUCCESS /\ amount t_out = transfer_amount dto
      /\ recipientWalletNumber t_out = Some (walletNumber rw)
      /\ walletId t_in = wallet_id rw /\ txn_type t_in = TRANSFER_IN
      /\ status t_in = SUCCESS /\ amount t_in = transfer_amount dto
      /\ senderWalletNumber t_in = Some (walletNumber sw)
      /\ reference t_out = None /\ reference t_in = None
      /\ reference t_out <> Some transferReference
      /\ reference t_in <> Some transferReference
  end.
Proof.
  cbv zeta. unfold_transfer.
  destruct (Qltb (transfer_amount dto) 100) eqn:Hmin; [reflexivity|].
  destruct (find_wallet_by_user (user_id u) (wallets s)) as [sw|] eqn:Hsw;
    tx_simpl; [|reflexivity].
  destruct (find_wallet_by_number (wallet_number dto) (wallets s)) as [rw|] eqn:Hrw;
    tx_simpl; [|reflexivity].
  destruct (Nat.eqb (wallet_id sw) (wallet_id rw)) eqn:Hid; tx_simpl; [reflexivity|].
  destruct (Qltb (balance sw) (transfer_amount dto)) eqn:Hbal; tx_simpl;
    [reflexivity|].
  eexists sw, rw, _, _. repeat split; try assumption; try discriminate.
Qed.

(** ** Row locks of concurrent store transactions *)

(** A store transaction seen by the lock manager: the rows it still has to
    lock, in order, and the rows it holds; [Done] has committed and released
    its locks. *)
Inductive LockThread :=
| Running (pending : list nat) (held : list nat)
| Done.

Definition holds (l : nat) (t : LockThread) : bool :=
  match t with
  | Running _ h => existsb (Nat.eqb l) h
  | Done => false
  end.

(** Thread [i] acquires its next row lock when no other thread holds it, or
    commits when it has none left to acquire. *)
Definition lock_step (ts : list LockThread) (i : nat) : option (list LockThread) :=
  match nth_error ts i with
  | Some (Running [] _) => Some (firstn i ts ++ [Done] ++ skipn (S i) ts)%list
  | Some (Running (l :: p) h) =>
    if existsb (fun j => negb (Nat.eqb j i) && holds l (nth j ts Done))
               (seq 0 (length ts))
    then None
    else Some (firstn i ts ++ [Running p (h ++ [l])] ++ skipn (S i) ts)%list
  | _ => None
  end.

Fixpoint run_schedule (ts : list LockThread) (sched : list nat)
  : option (list LockThread) :=
  match sched with
  | [] => Some ts
  | i :: sched' => match lock_step ts i with
                   | Some ts' => run_schedule ts' sched'
                   | None => None
                   end
  end.

Definition is_done (t : LockThread) : bool :=
  match t with Done => true | _ => false end.

(** No thread can move and some thread has not committed. *)
Definition deadlocked (ts : list LockThread) : bool :=
  forallb (fun i => match lock_step ts i with None => true | Some _ => false end)
          (seq 0 (length ts))
  && negb (forallb is_done ts).

Definition start_threads (traces : list (list nat)) : list LockThread :=
  map (fun p => Running p []) traces.

Fixpoint ascending (l : list nat) : bool :=
  match l with
  | a :: ((b :: _) as l') => Nat.ltb a b && ascending l'
  | _ => true
  end.

Example mirror_schedule_completes :
  option_map (forallb is_done)
    (run_schedule (start_threads [[1; 2]; [2; 1]]%nat) [0; 0; 0; 1; 1; 1]%nat)
  = Some true.
Proof. reflexivity. Qed.

(** ** Lock order of [transfer] *)

(** The rows [transfer] locks, in the order it locks them. *)
Definition transfer_locks (s : Store) (u : User) (dto : TransferDto) : list nat :=
  if Qltb (transfer_amount dto) 100 then []
  else match find_wallet_by_user (user_id u) (wallets s) with
       | None => []
       | Some sw =>
         match find_wallet_by_number (wallet_number dto) (wallets s) with
         | None => [wallet_id sw]
         | Some rw => [wallet_id sw; wallet_id rw]
         end
       end.

Lemma transfer_lock_trace (s : Store) (u : User) (dto : TransferDto) (tr : string) :
  lock_trace (transfer s u dto tr) = transfer_locks s u dto.
Proof.
  unfold transfer_locks. unfold_transfer.
  destruct (Qltb (transfer_amount dto) 100) eqn:Hmin; [reflexivity|].
  destruct (find_wallet_by_user (user_id u) (wallets s)) as [sw|] eqn:Hsw;
    tx_simpl; [|reflexivity].
  destruct (find_wallet_by_number (wallet_number dto) (wallets s)) as [rw|] eqn:Hrw;
    tx_simpl; [|reflexivity].
  destruct (Nat.eqb (wallet_id sw) (wallet_id rw)) eqn:Hid; tx_simpl; [reflexivity|].
  destruct (Qltb (balance sw) (transfer_amount dto)) eqn:Hbal; tx_simpl; reflexivity.
Qed.

(** Transfer from [bob] (wallet 2) to W1 (wallet 1). *)
Definition bob_to_w1 : TransferDto := {| wallet_number := "W1"; transfer_amount := 100 |}.
Definition alice_to_w2 : TransferDto := {| wallet_number := "W2"; transfer_amount := 100 |}.

Lemma mirror_locks_deadlock (a b : nat) :
  a <> b ->
  option_map deadlocked (run_schedule (start_threads [[a; b]; [b; a]]) [0; 1]%nat)
  = Some true.
Proof.
  intros Hne.
  assert (E1 : Nat.eqb a b = false) by (apply Nat.eqb_neq; exact Hne).
  assert (E2 : Nat.eqb b a = false) by (apply Nat.eqb_neq; congruence).
  cbn. rewrite E2. cbn. unfold deadlocked, lock_step. cbn.
  rewrite !Nat.eqb_refl. reflexivity.
Qed.

(** C9 (lock order), as the code does it. [transfer] locks the sender's
    wallet row first and the recipient's second, whatever their ids: the
    order follows the direction of the transfer, not ascending wallet id.
    For two mirror-image transfers between distinct wallets [a] and [b],
    the interleaving in which each transaction first locks its own sender
    row leaves each one waiting for the row the other holds. *)
Theorem transfer_lock_order (s : Store) (u : User) (dto : TransferDto)
  (tr : string) :
  lock_trace (transfer s u dto tr)
  = (if Qltb (transfer_amount dto) 100 then []
     else match find_wallet_by_user (user_id u) (wallets s) with
          | None => []
          | Some sw =>
            match find_wallet_by_number (wallet_number dto) (wallets s) with
            | None => [wallet_id sw]
            | Some rw => [wallet_id sw; wallet_id rw]
            end
          end)
  /\ (forall a b, a <> b ->
      option_map deadlocked
        (run_schedule (start_threads [[a; b]; [b; a]]) [0; 1]%nat) = Some true).
Proof.
  split.
  - apply transfer_lock_trace.
  - apply mirror_locks_deadlock.
Qed.

(** C9 counterexample: [bob] (wallet 2) paying W1 (wallet 1) locks row 2
    before row 1, and the mirror-image pair alice to W2 / bob to W1 can
    deadlock. *)
Lemma transfer_lock_order_counterexample :
  lock_trace (transfer store0 bob bob_to_w1 "TRANSFER_2_cd") = [2; 1]%nat
  /\ ascending (lock_trace (transfer store0 bob bob_to_w1 "TRANSFER_2_cd")) = false
  /\ option_map deadlocked
       (run_schedule
          (start_threads [lock_trace (transfer store0 alice alice_to_w2 "TRANSFER_1_ab");
                          lock_trace (transfer store0 bob bob_to_w1 "TRANSFER_2_cd")])
          [0; 1]%nat)
     = Some true.
Proof. vm_compute. repeat split. Qed.

(** ** Webhook reconciliation: effect on the store *)

Lemma find_txn_upsert_same (r : string) (t t' : Transaction) (ts : list Transaction) :
  find_txn_by_reference r ts = Some t ->
  reference t' = reference t -> txn_id t' = txn_id t ->
  find_txn_by_reference r (upsert_txn t' ts) = Some t'.
Proof.
  intros Hf Hr Hi. unfold upsert_txn.
  assert (Hex : existsb (fun x => Nat.eqb (txn_id x) (txn_id t')) ts = true).
  { apply existsb_exists. exists t. split.
    - unfold find_txn_by_reference in Hf. apply find_some in Hf. apply Hf.
    - rewrite Hi. apply Nat.eqb_refl. }
  rewrite Hex. clear Hex. unfold find_txn_by_reference in *.
  induction ts as [|x ts IH]; simpl in *; [discriminate|].
  destruct (match reference x with Some r' => String.eqb r' r | None => false end) eqn:Px.
  - injection Hf as <-. rewrite Hi, Nat.eqb_refl. simpl. rewrite Hr, Px. reflexivity.
  - destruct (Nat.eqb (txn_id x) (txn_id t')) eqn:Ex; simpl.
    + rewrite Hr. destruct (reference t) as [r'|] eqn:Rt.
      * assert (String.eqb r' r = true).
        { apply find_some in Hf. destruct Hf as [_ Hf]. rewrite Rt in Hf. exact Hf. }
        rewrite H. reflexivity.
      * apply find_some in Hf. destruct Hf as [_ Hf]. rewrite Rt in Hf. discriminate.
    + rewrite Px. exact (IH Hf).
Qed.

Definition tx_ok (s : Store) : TxResult unit :=
  {| outcome := inr tt; committed := s; lock_trace := [] |}.

Definition not_found_ref (r : string) : HttpError :=
  NotFoundException ("Transaction with reference " ++ r ++ " not found").

(** [handleSuccessfulCharge], case by case, as writes on the store. *)
Lemma handleSuccessfulCharge_cases (s : Store) (p : WebhookPayload) (now : string) :
  handleSuccessfulCharge s p now
  = match find_txn_by_reference (data_reference (data p)) (transactions s) with
    | None => {| outcome := inl (not_found_ref (data_reference (data p)));
                 committed := s; lock_trace := [] |}
    | Some t =>
      if status_eqb (status t) SUCCESS then tx_ok s
      else match find_wallet_by_id (walletId t) (wallets s) with
           | None => {| outcome := inl (TypeError "Cannot read properties of null (reading 'balance')");
                        committed := s; lock_trace := [] |}
           | Some w =>
             tx_ok {| wallets := upsert_wallet
                                   (with_balance w (balance w + data_amount (data p) / 100))
                                   (wallets s);
                      transactions := upsert_txn
                                        (with_status_metadata t SUCCESS
                                           (success_metadata p now (metadata t)))
                                        (transactions s);
                      next_txn_id := next_txn_id s |}
           end
    end.
Proof.
  unfold handleSuccessfulCharge, run_tx, handleSuccessfulCharge_body, bind, ret, throw,
    findOne_txn_with_wallet, save_txn, save_wallet, set_wallets, set_transactions, tx_ok.
  cbn -[find_txn_by_reference find_wallet_by_id upsert_wallet upsert_txn success_metadata].
  destruct (find_txn_by_reference _ (transactions s)) as [t|]; [|reflexivity].
  destruct (status_eqb (status t) SUCCESS); [reflexivity|].
  destruct (find_wallet_by_id (walletId t) (wallets s)); reflexivity.
Qed.

(** [handleFailedCharge], case by case, as writes on the store. *)
Lemma handleFailedCharge_cases (s : Store) (p : WebhookPayload) (now : string) :
  handleFailedCharge s p now
  = match find_txn_by_reference (data_reference (data p)) (transactions s) with
    | None => {| outcome := inl (not_found_ref (data_reference (data p)));
                 committed := s; lock_trace := [] |}
    | Some t =>
      if status_eqb (status t) FAILED then tx_ok s
      else tx_ok {| wallets := wallets s;
                    transactions := upsert_txn
                                      (with_status_metadata t FAILED
                                         (failure_metadata p now (metadata t)))
                                      (transactions s);
                    next_txn_id := next_txn_id s |}
    end.
Proof.
  unfold handleFailedCharge, run_tx, handleFailedCharge_body, bind, ret, throw,
    findOne_txn_by_reference, save_txn, set_transactions, tx_ok.
  cbn -[find_txn_by_reference upsert_txn failure_metadata].
  destruct (find_txn_by_reference _ (transactions s)) as [t|]; [|reflexivity].
  destruct (status_eqb (status t) FAILED); reflexivity.
Qed.

Lemma status_eqb_true (a b : TransactionStatus) : status_eqb a b = true <-> a = b.
Proof. destruct a, b; simpl; split; congruence. Qed.

Lemma webhook_twice_success (s : Store) (p : WebhookPayload) (now now' : string) :
  let r1 := handleSuccessfulCharge s p now in
  handleSuccessfulCharge (committed r1) p now'
  = match outcome r1 with
    | inl _ => handleSuccessfulCharge s p now'
    | inr _ => tx_ok (committed r1)
    end
  /\ (forall e, outcome r1 = inl e -> committed r1 = s).
Proof.
  cbv zeta. rewrite (handleSuccessfulCharge_cases s p now).
  destruct (find_txn_by_reference (data_reference (data p)) (transactions s))
    as [t|] eqn:Hf; simpl; [|split; [reflexivity | auto]].
  destruct (status_eqb (status t) SUCCESS) eqn:Hst; simpl.
  - split; [|discriminate]. rewrite handleSuccessfulCharge_cases, Hf, Hst. reflexivity.
  - destruct (find_wallet_by_id (walletId t) (wallets s)) as [w|] eqn:Hw; simpl;
      [|split; [reflexivity | auto]].
    split; [|discriminate].
    rewrite handleSuccessfulCharge_cases. simpl.
    erewrite find_txn_upsert_same; [| exact Hf | reflexivity | reflexivity].
    reflexivity.
Qed.

Lemma webhook_twice_failed (s : Store) (p : WebhookPayload) (now now' : string) :
  let r1 := handleFailedCharge s p now in
  handleFailedCharge (committed r1) p now'
  = match outcome r1 with
    | inl _ => handleFailedCharge s p now'
    | inr _ => tx_ok (committed r1)
    end
  /\ (forall e, outcome r1 = inl e -> committed r1 = s).
Proof.
  cbv zeta. rewrite (handleFailedCharge_cases s p now).
  destruct (find_txn_by_reference (data_reference (data p)) (transactions s))
    as [t|] eqn:Hf; simpl; [|split; [reflexivity | auto]].
  destruct (status_eqb (status t) FAILED) eqn:Hst; simpl.
  - split; [|discriminate]. rewrite handleFailedCharge_cases, Hf, Hst. reflexivity.
  - split; [|discriminate].
    rewrite handleFailedCharge_cases. simpl.
    erewrite find_txn_upsert_same; [| exact Hf | reflexivity | reflexivity].
    reflexivity.
Qed.

Definition is_error {A} (o : HttpError + A) : bool :=
  match o with inl _ => true | inr _ => false end.

Lemma success_error_now (s : Store) (p : WebhookPayload) (now now' : string) :
  is_error (outcome (handleSuccessfulCharge s p now))
  = is_error (outcome (handleSuccessfulCharge s p now')).
Proof.
  rewrite !handleSuccessfulCharge_cases.
  destruct (find_txn_by_reference _ (transactions s)) as [t|]; [|reflexivity].
  destruct (status_eqb (status t) SUCCESS); [reflexivity|].
  destruct (find_wallet_by_id (walletId t) (wallets s)); reflexivity.
Qed.

Lemma failed_error_now (s : Store) (p : WebhookPayload) (now now' : string) :
  is_error (outcome (handleFailedCharge s p now))
  = is_error (outcome (handleFailedCharge s p now')).
Proof.
  rewrite !handleFailedCharge_cases.
  destruct (find_txn_by_reference _ (transactions s)) as [t|]; [|reflexivity].
  destruct (status_eqb (status t) FAILED); reflexivity.
Qed.

(** C2 (idempotent webhook). Delivering the same event a second time (at
    any later time [now']) commits the same store as delivering it once,
    and succeeds again when the first delivery succeeded. An event whose
    terminal status the entry already has (charge.success on a [SUCCESS]
    entry, charge.failed on a [FAILED] entry) commits the store unchanged
    and succeeds. *)
Theorem webhook_idempotent (s : Store) (p : WebhookPayload) (now now' : string) :
  let r1 := handlePaystackWebhook s p now in
  let r2 := handlePaystackWebhook (committed r1) p now' in
  committed r2 = committed r1
  /\ (outcome r1 = inr tt -> outcome r2 = inr tt)
  /\ (forall t,
        find_txn_by_reference (data_reference (data p)) (transactions s) = Some t ->
        (event p = "charge.success" /\ status t = SUCCESS)
        \/ (event p = "charge.failed" /\ status t = FAILED) ->
        r1 = tx_ok s).
Proof.
  cbv zeta. unfold handlePaystackWebhook.
  destruct (String.eqb (event p) "charge.success") eqn:Es.
  - destruct (webhook_twice_success s p now now') as [H2 Hs]. cbv zeta in H2.
    rewrite H2. repeat split.
    + destruct (outcome (handleSuccessfulCharge s p now)) eqn:Ho; [|reflexivity].
      destruct (webhook_twice_success s p now' now) as [_ Hs'].
      rewrite (Hs _ eq_refl).
      pose proof (success_error_now s p now now') as Hn. rewrite Ho in Hn.
      destruct (outcome (handleSuccessfulCharge s p now')) eqn:Ho';
        [apply (Hs' _ eq_refl) | discriminate].
    + intros Ho. rewrite Ho. reflexivity.
    + intros t Hf [[_ Hst] | [He _]].
      * rewrite handleSuccessfulCharge_cases, Hf, Hst. reflexivity.
      * apply String.eqb_eq in Es. congruence.
  - destruct (String.eqb (event p) "charge.failed") eqn:Ef.
    + destruct (webhook_twice_failed s p now now') as [H2 Hs]. cbv zeta in H2.
      rewrite H2. repeat split.
      * destruct (outcome (handleFailedCharge s p now)) eqn:Ho; [|reflexivity].
        rewrite (Hs _ eq_refl).
        destruct (webhook_twice_failed s p now' now) as [_ Hs'].
        pose proof (failed_error_now s p now now') as Hn. rewrite Ho in Hn.
        destruct (outcome (handleFailedCharge s p now')) eqn:Ho';
          [apply (Hs' _ eq_refl) | discriminate].
      * intros Ho. rewrite Ho. reflexivity.
      * intros t Hf [[He _] | [_ Hst]].
        -- rewrite He in Es. discriminate.
        -- rewrite handleFailedCharge_cases, Hf, Hst. reflexivity.
    + repeat split.
Qed.

(** ** Webhook reconciliation: the success and failure writes *)

(** Property [k] of a parsed metadata object. *)
Definition meta_lookup (k : string) (m : Metadata) : option MetaValue :=
  match find (fun kv => String.eqb (fst kv) k) m with
  | Some (_, v) => Some v
  | None => None
  end.

Lemma lookup_set_key (k k' : string) (v : MetaValue) (m : Metadata) :
  meta_lookup k (set_key k' v m)
  = if String.eqb k' k then Some v else meta_lookup k m.
Proof.
  unfold meta_lookup. induction m as [|[k0 v0] m IH]; simpl.
  - destruct (String.eqb k' k); reflexivity.
  - destruct (String.eqb k0 k') eqn:E0; simpl.
    + apply String.eqb_eq in E0. subst k0.
      destruct (String.eqb k' k); reflexivity.
    + destruct (String.eqb k0 k) eqn:E1.
      * apply String.eqb_eq in E1. subst k0.
        destruct (String.eqb k' k) eqn:E2; [|reflexivity].
        apply String.eqb_eq in E2. subst k'. rewrite String.eqb_refl in E0. discriminate.
      * exact IH.
Qed.

Lemma lookup_remove_key (k k' : string) (m : Metadata) :
  meta_lookup k (remove_key k' m)
  = if String.eqb k' k then None else meta_lookup k m.
Proof.
  unfold meta_lookup. induction m as [|[k0 v0] m IH]; simpl.
  - destruct (String.eqb k' k); reflexivity.
  - destruct (String.eqb k0 k') eqn:E0; simpl.
    + apply String.eqb_eq in E0. subst k0. rewrite IH.
      destruct (String.eqb k' k); reflexivity.
    + destruct (String.eqb k0 k) eqn:E1.
      * apply String.eqb_eq in E1. subst k0.
        destruct (String.eqb k' k) eqn:E2; [|reflexivity].
        apply String.eqb_eq in E2. subst k'. rewrite String.eqb_refl in E0. discriminate.
      * exact IH.
Qed.

Lemma event_success_dispatch (s : Store) (p : WebhookPayload) (now : string) :
  event p = "charge.success" ->
  handlePaystackWebhook s p now = handleSuccessfulCharge s p now.
Proof. intros Hev. unfold handlePaystackWebhook. rewrite Hev. reflexivity. Qed.

Lemma event_failed_dispatch (s : Store) (p : WebhookPayload) (now : string) :
  event p = "charge.failed" ->
  handlePaystackWebhook s p now = handleFailedCharge s p now.
Proof. intros Hev. unfold handlePaystackWebhook. rewrite Hev. reflexivity. Qed.

Lemma webhook_failure_rolls_back (s : Store) (p : WebhookPayload) (now : string)
  (e : HttpError) :
  outcome (handlePaystackWebhook s p now) = inl e ->
  committed (handlePaystackWebhook s p now) = s.
Proof.
  unfold handlePaystackWebhook.
  destruct (String.eqb (event p) "charge.success").
  - rewrite handleSuccessfulCharge_cases.
    destruct (find_txn_by_reference _ (transactions s)) as [t|]; [|reflexivity].
    destruct (status_eqb (status t) SUCCESS); [discriminate|].
    destruct (find_wallet_by_id (walletId t) (wallets s)); [discriminate | reflexivity].
  - destruct (String.eqb (event p) "charge.failed"); [|discriminate].
    rewrite handleFailedCharge_cases.
    destruct (find_txn_by_reference _ (transactions s)) as [t|]; [|reflexivity].
    destruct (status_eqb (status t) FAILED); discriminate.
Qed.

(** The writes of a charge.success event on an entry that is not yet
    [SUCCESS] and whose wallet row exists. *)
Lemma success_event_effect (s : Store) (p : WebhookPayload) (now : string)
  (t : Transaction) (w : Wallet) :
  event p = "charge.success" ->
  find_txn_by_reference (data_reference (data p)) (transactions s) = Some t ->
  status t <> SUCCESS ->
  find_wallet_by_id (walletId t) (wallets s) = Some w ->
  let t' := with_status_metadata t SUCCESS (success_metadata p now (metadata t)) in
  let w' := with_balance w (balance w + data_amount (data p) / 100) in
  handlePaystackWebhook s p now
  = tx_ok {| wallets := upsert_wallet w' (wallets s);
             transactions := upsert_txn t' (transactions s);
             next_txn_id := next_txn_id s |}
  /\ find_txn_by_reference (data_reference (data p))
       (upsert_txn t' (transactions s)) = Some t'
  /\ find_wallet_by_id (walletId t) (upsert_wallet w' (wallets s)) = Some w'.
Proof.
  intros Hev Hf Hst Hw. cbv zeta.
  rewrite event_success_dispatch by exact Hev.
  rewrite handleSuccessfulCharge_cases, Hf, Hw.
  destruct (status_eqb (status t) SUCCESS) eqn:E;
    [apply status_eqb_true in E; contradiction|].
  split; [reflexivity|split].
  - apply (find_txn_upsert_same _ t); [exact Hf | reflexivity | reflexivity].
  - rewrite find_upsert_wallet. simpl.
    destruct (Nat.eqb (wallet_id w) (walletId t)) eqn:Ei; [reflexivity|].
    exfalso. unfold find_wallet_by_id in Hw. apply find_some in Hw.
    destruct Hw as [_ Hw]. congruence.
Qed.

(** C5 (charge.success). On a charge.success event for an existing entry
    that is not [SUCCESS] (its wallet row existing), the reconciler
    succeeds and commits, in one store transaction, exactly two writes: the
    entry, now [SUCCESS] with [webhook_received], [success_time] and
    [paystack_response] set in its existing metadata (every other property
    kept), and the owning wallet, credited by the notified amount divided
    by 100 (500000 kobo credit 5000). A failing delivery commits nothing. *)
Theorem charge_success_credits (s : Store) (p : WebhookPayload) (now : string)
  (t : Transaction) (w : Wallet)
  (Hev : event p = "charge.success")
  (Hf : find_txn_by_reference (data_reference (data p)) (transactions s) = Some t)
  (Hst : status t <> SUCCESS)
  (Hw : find_wallet_by_id (walletId t) (wallets s) = Some w) :
  let r := handlePaystackWebhook s p now in
  let t' := with_status_metadata t SUCCESS (success_metadata p now (metadata t)) in
  let w' := with_balance w (balance w + data_amount (data p) / 100) in
  outcome r = inr tt
  /\ committed r = {| wallets := upsert_wallet w' (wallets s);
                      transactions := upsert_txn t' (transactions s);
                      next_txn_id := next_txn_id s |}
  /\ find_txn_by_reference (data_reference (data p)) (transactions (committed r)) = Some t'
  /\ status t' = SUCCESS
  /\ meta_lookup "webhook_received" (parse_metadata (metadata t')) = Some (MBool true)
  /\ meta_lookup "success_time" (parse_metadata (metadata t')) = Some (MStr now)
  /\ meta_lookup "paystack_response" (parse_metadata (metadata t'))
     = Some (MStr (response_or_success (gateway_response (data p))))
  /\ (forall k, k <> "webhook_received" -> k <> "success_time" ->
      k <> "paystack_response" ->
      meta_lookup k (parse_metadata (metadata t'))
      = meta_lookup k (parse_metadata (metadata t)))
  /\ find_wallet_by_id (walletId t) (wallets (committed r)) = Some w'
  /\ balance w' == balance w + data_amount (data p) / 100
  /\ (data_amount (data p) == 500000 -> balance w' == balance w + 5000)
  /\ (forall s0 e, outcome (handlePaystackWebhook s0 p now) = inl e ->
      committed (handlePaystackWebhook s0 p now) = s0).
Proof.
  destruct (success_event_effect s p now t w Hev Hf Hst Hw) as (Hr & Ht & Hw').
  cbv zeta in *. rewrite Hr. simpl.
  unfold success_metadata. simpl parse_metadata.
  rewrite !lookup_set_key.
  repeat split; try assumption; try reflexivity.
  - intros k H1 H2 H3. rewrite !lookup_set_key.
    destruct (String.eqb "paystack_response" k) eqn:E1;
      [apply String.eqb_eq in E1; congruence|].
    destruct (String.eqb "success_time" k) eqn:E2;
      [apply String.eqb_eq in E2; congruence|].
    destruct (String.eqb "webhook_received" k) eqn:E3;
      [apply String.eqb_eq in E3; congruence|].
    reflexivity.
  - intros Ha. rewrite Ha.
    setoid_replace (500000 / 100 : Q) with (5000 : Q) by reflexivity. reflexivity.
  - intros s0 e. apply webhook_failure_rolls_back.
Qed.

(** ** Sample webhook deliveries *)

Definition pending_deposit : Transaction :=
  {| txn_id := 0; walletId := 1; txn_type := DEPOSIT; amount := 5000;
     status := PENDING; reference := Some "TXN_1_ab";
     recipientWalletNumber := None; senderWalletNumber := None; metadata := None |}.

Definition store1 : Store :=
  {| wallets := [w1; w2]; transactions := [pending_deposit]; next_txn_id := 1 |}.

Definition charge_success : WebhookPayload :=
  {| event := "charge.success";
     data := {| data_reference := "TXN_1_ab"; data_amount := 500000;
                gateway_response := Some "Successful" |} |}.

Definition charge_failed : WebhookPayload :=
  {| event := "charge.failed";
     data := {| data_reference := "TXN_1_ab"; data_amount := 500000;
                gateway_response := Some "Declined" |} |}.

Definition now0 : string := "2026-01-01T00:00:00.000Z".

(** Spec scenario: 500000 kobo credit W1 (1000) with 5000, once, even when
    the event is delivered twice. *)
Example charge_success_scenario :
  let r1 := handlePaystackWebhook store1 charge_success now0 in
  let r2 := handlePaystackWebhook (committed r1) charge_success now0 in
  opt_Qeqb (wallet_balance (committed r1) 1) (Some 6000) = true
  /\ opt_Qeqb (wallet_balance (committed r2) 1) (Some 6000) = true
  /\ option_map status (find_txn_by_reference "TXN_1_ab" (transactions (committed r2)))
     = Some SUCCESS.
Proof. vm_compute. repeat split. Qed.

Lemma charge_success_credits_witness :
  let r := handlePaystackWebhook store1 charge_success now0 in
  let t' := with_status_metadata pending_deposit SUCCESS
              (success_metadata charge_success now0 (metadata pending_deposit)) in
  let w' := with_balance w1 (balance w1 + data_amount (data charge_success) / 100) in
  outcome r = inr tt
  /\ committed r = {| wallets := upsert_wallet w' (wallets store1);
                      transactions := upsert_txn t' (transactions store1);
                      next_txn_id := next_txn_id store1 |}
  /\ find_txn_by_reference "TXN_1_ab" (transactions (committed r)) = Some t'
  /\ status t' = SUCCESS
  /\ meta_lookup "webhook_received" (parse_metadata (metadata t')) = Some (MBool true)
  /\ meta_lookup "success_time" (parse_metadata (metadata t')) = Some (MStr now0)
  /\ meta_lookup "paystack_response" (parse_metadata (metadata t'))
     = Some (MStr "Successful")
  /\ (forall k, k <> "webhook_received" -> k <> "success_time" ->
      k <> "paystack_response" ->
      meta_lookup k (parse_metadata (metadata t'))
      = meta_lookup k (parse_metadata (metadata pending_deposit)))
  /\ find_wallet_by_id 1 (wallets (committed r)) = Some w'
  /\ balance w' == balance w1 + data_amount (data charge_success) / 100
  /\ (data_amount (data charge_success) == 500000 -> balance w' == balance w1 + 5000)
  /\ (forall s0 e, outcome (handlePaystackWebhook s0 charge_success now0) = inl e ->
      committed (handlePaystackWebhook s0 charge_success now0) = s0).
Proof.
  exact (charge_success_credits store1 charge_success now0 pending_deposit w1
           eq_refl eq_refl ltac:(discriminate) eq_refl).
Defined.

(** C6 (late success after failure). A charge.success event for an entry
    that is [FAILED] is processed, not rejected: the delivery succeeds, the
    entry becomes [SUCCESS] and the owning wallet is credited by the
    notified amount divided by 100. *)
Theorem charge_success_recovers_failed (s : Store) (p : WebhookPayload)
  (now : string) (t : Transaction) (w : Wallet)
  (Hev : event p = "charge.success")
  (Hf : find_txn_by_reference (data_reference (data p)) (transactions s) = Some t)
  (Hst : status t = FAILED)
  (Hw : find_wallet_by_id (walletId t) (wallets s) = Some w) :
  let r := handlePaystackWebhook s p now in
  outcome r = inr tt
  /\ option_map status
       (find_txn_by_reference (data_reference (data p)) (transactions (committed r)))
     = Some SUCCESS
  /\ option_map balance (find_wallet_by_id (walletId t) (wallets (committed r)))
     = Some (balance w + data_amount (data p) / 100).
Proof.
  assert (Hns : status t <> SUCCESS) by (rewrite Hst; discriminate).
  destruct (success_event_effect s p now t w Hev Hf Hns Hw) as (Hr & Ht & Hw').
  cbv zeta in *. rewrite Hr. simpl. rewrite Ht, Hw'. repeat split.
Qed.

Definition failed_deposit : Transaction :=
  {| txn_id := 0; walletId := 1; txn_type := DEPOSIT; amount := 5000;
     status := FAILED; reference := Some "TXN_1_ab";
     recipientWalletNumber := None; senderWalletNumber := None;
     metadata := Some [("failure_reason", MStr "Declined");
                       ("failure_time", MStr now0);
                       ("webhook_received", MBool true)] |}.

Definition store_failed : Store :=
  {| wallets := [w1; w2]; transactions := [failed_deposit]; next_txn_id := 1 |}.

Lemma charge_success_recovers_failed_witness :
  let r := handlePaystackWebhook store_failed charge_success now0 in
  outcome r = inr tt
  /\ option_map status (find_txn_by_reference "TXN_1_ab" (transactions (committed r)))
     = Some SUCCESS
  /\ option_map balance (find_wallet_by_id 1 (wallets (committed r)))
     = Some (balance w1 + data_amount (data charge_success) / 100).
Proof.
  exact (charge_success_recovers_failed store_failed charge_success now0
           failed_deposit w1 eq_refl eq_refl eq_refl eq_refl).
Defined.

(** C10 (charge.failed after success). A charge.failed event for an entry
    that is already [SUCCESS] is not a no-op: the entry becomes [FAILED],
    its metadata gets [failure_reason] (when the gateway sent one),
    [failure_time] and [webhook_received], and the wallet rows are left as
    they are: the earlier credit is not reversed. *)
Theorem charge_failed_after_success (s : Store) (p : WebhookPayload)
  (now : string) (t : Transaction)
  (Hev : event p = "charge.failed")
  (Hf : find_txn_by_reference (data_reference (data p)) (transactions s) = Some t)
  (Hst : status t = SUCCESS) :
  let r := handlePaystackWebhook s p now in
  let t' := with_status_metadata t FAILED (failure_metadata p now (metadata t)) in
  outcome r = inr tt
  /\ committed r = {| wallets := wallets s;
                      transactions := upsert_txn t' (transactions s);
                      next_txn_id := next_txn_id s |}
  /\ find_txn_by_reference (data_reference (data p)) (transactions (committed r)) = Some t'
  /\ status t' = FAILED
  /\ meta_lookup "failure_reason" (parse_metadata (metadata t'))
     = option_map MStr (gateway_response (data p))
  /\ meta_lookup "failure_time" (parse_metadata (metadata t')) = Some (MStr now)
  /\ meta_lookup "webhook_received" (parse_metadata (metadata t')) = Some (MBool true)
  /\ wallets (committed r) = wallets s.
Proof.
  cbv zeta. rewrite event_failed_dispatch by exact Hev.
  rewrite handleFailedCharge_cases, Hf, Hst. simpl.
  unfold failure_metadata. simpl parse_metadata. rewrite !lookup_set_key. simpl.
  repeat split.
  - apply (find_txn_upsert_same _ t); [exact Hf | reflexivity | reflexivity].
  - destruct (gateway_response (data p)) as [g|]; simpl.
    + rewrite lookup_set_key. reflexivity.
    + rewrite lookup_remove_key. reflexivity.
Qed.

Definition succeeded_deposit : Transaction :=
  {| txn_id := 0; walletId := 1; txn_type := DEPOSIT; amount := 5000;
     status := SUCCESS; reference := Some "TXN_1_ab";
     recipientWalletNumber := None; senderWalletNumber := None; metadata := None |}.

Definition store_succeeded : Store :=
  {| wallets := [w1; w2]; transactions := [succeeded_deposit]; next_txn_id := 1 |}.

Lemma charge_failed_after_success_witness :
  let r := handlePaystackWebhook store_succeeded charge_failed now0 in
  let t' := with_status_metadata succeeded_deposit FAILED
              (failure_metadata charge_failed now0 (metadata succeeded_deposit)) in
  outcome r = inr tt
  /\ committed r = {| wallets := wallets store_succeeded;
                      transactions := upsert_txn t' (transactions store_succeeded);
                      next_txn_id := next_txn_id store_succeeded |}
  /\ find_txn_by_reference "TXN_1_ab" (transactions (committed r)) = Some t'
  /\ status t' = FAILED
  /\ meta_lookup "failure_reason" (parse_metadata (metadata t')) = Some (MStr "Declined")
  /\ meta_lookup "failure_time" (parse_metadata (metadata t')) = Some (MStr now0)
  /\ meta_lookup "webhook_received" (parse_metadata (metadata t')) = Some (MBool true)
  /\ wallets (committed r) = wallets store_succeeded.
Proof.
  exact (charge_failed_after_success store_succeeded charge_failed now0
           succeeded_deposit eq_refl eq_refl eq_refl).
Defined.

(** ** Deposit status *)

(** C8 (cross-tenant isolation). When the entry with the reference belongs
    to a wallet of another user, [getDepositStatus] fails with the constant
    [BadRequestException "Unauthorized access to transaction"], which
    carries none of the entry's fields. It fails with [NotFoundException]
    exactly when no entry has the reference. *)
Theorem deposit_status_isolation (s : Store) (u : User) (r : string) :
  (forall t w,
     find_txn_by_reference r (transactions s) = Some t ->
     find_wallet_by_id (walletId t) (wallets s) = Some w ->
     userId w <> user_id u ->
     getDepositStatus s u r = inl (BadRequestException "Unauthorized access to transaction"))
  /\ (forall msg, getDepositStatus s u r = inl (NotFoundException msg) ->
      find_txn_by_reference r (transactions s) = None)
  /\ (find_txn_by_reference r (transactions s) = None ->
      getDepositStatus s u r = inl (NotFoundException "Transaction not found")).
Proof.
  unfold getDepositStatus. repeat split.
  - intros t w Hf Hw Hne. rewrite Hf, Hw.
    apply Nat.eqb_neq in Hne. rewrite Hne. reflexivity.
  - intros msg. destruct (find_txn_by_reference r (transactions s)) as [t|]; [|reflexivity].
    destruct (find_wallet_by_id (walletId t) (wallets s)) as [w|]; [|discriminate].
    destruct (negb (Nat.eqb (userId w) (user_id u))); discriminate.
  - intros Hf. rewrite Hf. reflexivity.
Qed.

Example deposit_status_other_user :
  getDepositStatus store1 bob "TXN_1_ab"
  = inl (BadRequestException "Unauthorized access to transaction").
Proof. reflexivity. Qed.

(** ** Non-negative balances *)

Definition webhook_amount_nonneg (op : Op) : Prop :=
  match op with
  | OpWebhook p _ => 0 <= data_amount (data p)
  | _ => True
  end.

Lemma find_wallet_In (f : Wallet -> bool) (ws : list Wallet) (w : Wallet) :
  find f ws = Some w -> In w ws.
Proof. intros H. apply find_some in H. apply H. Qed.

Lemma transfer_preserves_nonneg (s : Store) (u : User) (dto : TransferDto)
  (tr : string) :
  balances_nonneg s -> balances_nonneg (committed (transfer s u dto tr)).
Proof.
  intros Hs. pose proof (transfer_cases s u dto tr) as H. cbv zeta in H.
  destruct H as [[e [_ Hc]] | [sw [rw (Hmin & Hsw & Hrw & _ & Hbal & _ & Hw)]]].
  - rewrite Hc. exact Hs.
  - unfold balances_nonneg in *. rewrite Hw.
    apply Qltb_false in Hmin. apply Qltb_false in Hbal.
    pose proof (proj1 (Forall_forall _ _) Hs sw (find_wallet_In _ _ _ Hsw)) as Hs0.
    pose proof (proj1 (Forall_forall _ _) Hs rw (find_wallet_In _ _ _ Hrw)) as Hr0.
    cbv beta in Hs0, Hr0.
    apply upsert_wallet_Forall; [simpl; lra|].
    apply upsert_wallet_Forall; [simpl; lra | exact Hs].
Qed.

Lemma webhook_preserves_nonneg (s : Store) (p : WebhookPayload) (now : string) :
  0 <= data_amount (data p) ->
  balances_nonneg s -> balances_nonneg (committed (handlePaystackWebhook s p now)).
Proof.
  intros Ha Hs. unfold handlePaystackWebhook.
  destruct (String.eqb (event p) "charge.success").
  - rewrite handleSuccessfulCharge_cases.
    destruct (find_txn_by_reference _ (transactions s)) as [t|]; [|exact Hs].
    destruct (status_eqb (status t) SUCCESS); [exact Hs|].
    destruct (find_wallet_by_id (walletId t) (wallets s)) as [w|] eqn:Hw; [|exact Hs].
    unfold balances_nonneg in *. simpl.
    pose proof (proj1 (Forall_forall _ _) Hs w (find_wallet_In _ _ _ Hw)) as Hw0.
    cbv beta in Hw0.
    apply upsert_wallet_Forall; [simpl | exact Hs].
    assert (0 <= data_amount (data p) / 100).
    { apply Qle_shift_div_l; [reflexivity | lra]. }
    lra.
  - destruct (String.eqb (event p) "charge.failed"); [|exact Hs].
    rewrite handleFailedCharge_cases.
    destruct (find_txn_by_reference _ (transactions s)) as [t|]; [|exact Hs].
    destruct (status_eqb (status t) FAILED); exact Hs.
Qed.

Lemma step_preserves_nonneg (s : Store) (op : Op) :
  webhook_amount_nonneg op -> balances_nonneg s -> balances_nonneg (step s op).
Proof.
  intros Hop Hs. destruct op as [u|u a r g|u dto tr|p now|u r]; simpl.
  - exact Hs.
  - unfold initiateDeposit.
    destruct (find_wallet_by_user (user_id u) (wallets s)); [|exact Hs].
    destruct (Qltb a 100); exact Hs.
  - apply transfer_preserves_nonneg. exact Hs.
  - apply webhook_preserves_nonneg; assumption.
  - exact Hs.
Qed.

Lemma transfer_refuses_overdraft (s : Store) (u : User) (dto : TransferDto)
  (tr : string) (sw : Wallet) :
  find_wallet_by_user (user_id u) (wallets s) = Some sw ->
  balance sw < transfer_amount dto ->
  (exists e, outcome (transfer s u dto tr) = inl e /\ committed (transfer s u dto tr) = s)
  /\ (forall rw, 100 <= transfer_amount dto ->
      find_wallet_by_number (wallet_number dto) (wallets s) = Some rw ->
      wallet_id sw <> wallet_id rw ->
      outcome (transfer s u dto tr) = inl (BadRequestException "Insufficient balance")).
Proof.
  intros Hsw Hlt. split.
  - pose proof (transfer_cases s u dto tr) as H. cbv zeta in H.
    destruct H as [He | [sw' [rw (_ & Hsw' & _ & _ & Hbal & _)]]]; [exact He|].
    rewrite Hsw in Hsw'. injection Hsw' as <-.
    apply Qltb_false in Hbal. exfalso. apply (Qlt_not_le _ _ Hlt Hbal).
  - intros rw Hge Hrw Hid. apply Qltb_false in Hge. apply Qltb_true in Hlt.
    apply Nat.eqb_neq in Hid. unfold_transfer.
    rewrite Hge, Hsw. tx_simpl. rewrite Hrw. tx_simpl.
    rewrite Hid. tx_simpl. rewrite Hlt. reflexivity.
Qed.

(** C3 (non-negative balances), as the code does it. Starting from a store
    whose wallet balances are all non-negative, every committed store along
    any sequence of reads, deposit initiations, transfers and webhook
    deliveries whose charge amounts are non-negative has only non-negative
    balances. A transfer whose sender balance is below the amount is
    refused and commits nothing; once the amount, wallet and self-transfer
    checks pass, the error is "Insufficient balance". *)
Theorem no_negative_balance (s : Store) (ops : list Op)
  (Hs : balances_nonneg s) (Hops : Forall webhook_amount_nonneg ops) :
  Forall balances_nonneg (trace s ops)
  /\ (forall u dto tr sw,
        find_wallet_by_user (user_id u) (wallets s) = Some sw ->
        balance sw < transfer_amount dto ->
        (exists e, outcome (transfer s u dto tr) = inl e
                   /\ committed (transfer s u dto tr) = s)
        /\ (forall rw, 100 <= transfer_amount dto ->
            find_wallet_by_number (wallet_number dto) (wallets s) = Some rw ->
            wallet_id sw <> wallet_id rw ->
            outcome (transfer s u dto tr) = inl (BadRequestException "Insufficient balance"))).
Proof.
  split.
  - revert s Hs. induction Hops as [|op ops Hop Hops IH]; intros s Hs; simpl.
    + constructor; [exact Hs | constructor].
    + constructor; [exact Hs|]. apply IH. apply step_preserves_nonneg; assumption.
  - intros u dto tr sw Hsw Hlt. apply transfer_refuses_overdraft; assumption.
Qed.

Lemma Q_nonneg_of_bool (q : Q) : Qle_bool 0 q = true -> 0 <= q.
Proof. apply Qle_bool_iff. Qed.

Definition ops_sample : list Op :=
  [OpGetBalance alice;
   OpInitiateDeposit alice 5000 "TXN_2_cd" (inr ("TXN_2_cd", "https://checkout.paystack.com/x"));
   OpTransfer alice {| wallet_number := "W2"; transfer_amount := 300 |} "TRANSFER_1_ab";
   OpWebhook charge_success now0;
   OpWebhook charge_failed now0].

Lemma no_negative_balance_witness :
  balances_nonneg store1 /\ Forall webhook_amount_nonneg ops_sample
  /\ Forall balances_nonneg (trace store1 ops_sample).
Proof.
  assert (Hs : balances_nonneg store1).
  { unfold balances_nonneg. simpl.
    repeat constructor; apply Q_nonneg_of_bool; reflexivity. }
  assert (Hops : Forall webhook_amount_nonneg ops_sample).
  { unfold ops_sample.
    repeat constructor; simpl; apply Q_nonneg_of_bool; reflexivity. }
  split; [exact Hs|]. split; [exact Hops|].
  exact (proj1 (no_negative_balance store1 ops_sample Hs Hops)).
Defined.

(** A charge.success event with a negative amount. *)
Definition negative_charge : WebhookPayload :=
  {| event := "charge.success";
     data := {| data_reference := "TXN_1_ab"; data_amount := -500000;
                gateway_response := None |} |}.

(** C3 counterexample: from non-negative balances, one charge.success
    delivery with a negative amount debits W1 from 1000 to -4000. *)
Lemma no_negative_balance_counterexample :
  balances_nonneg store1
  /\ ~ Forall balances_nonneg (trace store1 [OpWebhook negative_charge now0]).
Proof.
  split.
  - unfold balances_nonneg. simpl.
    repeat constructor; apply Q_nonneg_of_bool; reflexivity.
  - intros H. apply Forall_inv_tail, Forall_inv in H.
    unfold balances_nonneg in H. apply Forall_inv in H.
    apply Qle_bool_iff in H. vm_compute in H. discriminate H.
Qed.

(** * Further operations of the wallet module *)

From Stdlib Require Import Permutation.

(** ** [getTransactions] *)

(** One element of the array [getTransactions] returns. [v_metadata] is
    [None] when the entry has no metadata: the element then has neither
    [metadata] nor [failure_reason]; otherwise [v_failure_reason] is
    [metadata.failure_reason || null]. *)
Record TransactionView := {
  v_id : nat;
  v_type : TransactionType;
  v_amount : Q;
  v_status : TransactionStatus;
  v_reference : option string;
  v_recipient_wallet_number : option string;
  v_sender_wallet_number : option string;
  v_metadata : option Metadata;
  v_failure_reason : option MetaValue
}.

(** JavaScript truthiness of a JSON value. *)
Definition truthy (v : MetaValue) : bool :=
  match v with
  | MStr s => negb (String.eqb s "")
  | MBool b => b
  end.

Definition to_view (t : Transaction) : TransactionView :=
  {| v_id := txn_id t; v_type := txn_type t; v_amount := amount t;
     v_status := status t; v_reference := reference t;
     v_recipient_wallet_number := recipientWalletNumber t;
     v_sender_wallet_number := senderWalletNumber t;
     v_metadata := metadata t;
     v_failure_reason :=
       match metadata t with
       | None => None
       | Some m => match meta_lookup "failure_reason" m with
                   | Some v => if truthy v then Some v else None
                   | None => None
                   end
       end |}.

Section GetTransactions.

(** [order: { createdAt: 'DESC' }]: the model does not carry [createdAt],
    so the order the store returns the rows in is a parameter; it only
    reorders them. *)
Variable order_by_createdAt_desc : list Transaction -> list Transaction.

Definition getTransactions (s : Store) (user : User)
  : HttpError + list TransactionView :=
  match find_wallet_by_user (user_id user) (wallets s) with
  | None => inl (NotFoundException "Wallet not found")
  | Some w =>
    inr (map to_view
           (firstn 50
              (order_by_createdAt_desc
                 (filter (fun t => Nat.eqb (walletId t) (wallet_id w))
                    (transactions s)))))
  end.

End GetTransactions.

(** ** Paystack service and webhook controller *)



(** [verifyWebhookSignature]; [hmac_sha512_hex] is
    [crypto.createHmac('sha512', paystackSecretKey).update(_).digest('hex')]. *)
Definition verifyWebhookSignature (hmac_sha512_hex : string -> string)
  (payload : string) (signature : option string) : bool :=
  match signature with
  | None => false
  | Some sg => if String.eqb sg "" then false else String.eqb (hmac_sha512_hex payload) sg
  end.

(** [WalletController.paystackWebhook]: [stringify] is [JSON.stringify] of
    the parsed body; the handler answers [{ status: true }]. *)
Definition paystackWebhook (hmac_sha512_hex : string -> string)
  (stringify : WebhookPayload -> string) (s : Store) (body : WebhookPayload)
  (signature : option string) (now : string) : (HttpError + bool) * Store :=
  let missing := match signature with
                 | None => true
                 | Some sg => String.eqb sg ""
                 end in
  if missing then (inl (BadRequestException "Missing Paystack signature"), s)
  else if negb (verifyWebhookSignature hmac_sha512_hex (stringify body) signature)
  then (inl (BadRequestException "Invalid Paystack signature"), s)
  else
    let r := handlePaystackWebhook s body now in
    (match outcome r with inl e => inl e | inr _ => inr true end, committed r).

(** ** Well-formed stores: wallet ids are primary keys, one wallet per user *)

Definition unique_wallet_ids (s : Store) : Prop := NoDup (map wallet_id (wallets s)).

Definition one_wallet_per_user (s : Store) : Prop := NoDup (map userId (wallets s)).

(** ** Lookup lemmas for well-formed stores *)

Lemma find_map_compat {A : Type} (P : A -> bool) (f : A -> A) (l : list A) :
  (forall a, In a l -> P (f a) = P a) ->
  find P (map f l) = option_map f (find P l).
Proof.
  induction l as [|a l IH]; intros H; simpl; [reflexivity|].
  rewrite (H a (or_introl eq_refl)).
  destruct (P a); [reflexivity|].
  apply IH. intros b Hb. apply H. right. exact Hb.
Qed.

Lemma find_app_single {A : Type} (P : A -> bool) (l : list A) (x : A) :
  find P l = None -> find P (l ++ [x]) = if P x then Some x else None.
Proof.
  induction l as [|a l IH]; simpl; intros H; [reflexivity|].
  destruct (P a); [discriminate | exact (IH H)].
Qed.

Lemma NoDup_map_same {A B : Type} (f : A -> B) (l : list A) (a b : A) :
  NoDup (map f l) -> In a l -> In b l -> f a = f b -> a = b.
Proof.
  induction l as [|c l IH]; simpl; intros Hnd Ha Hb Hf; [contradiction|].
  inversion Hnd as [|? ? Hnotin Hnd']; subst.
  destruct Ha as [<-|Ha], Hb as [<-|Hb]; try reflexivity.
  - exfalso. apply Hnotin. rewrite Hf. apply in_map. exact Hb.
  - exfalso. apply Hnotin. rewrite <- Hf. apply in_map. exact Ha.
  - apply IH; assumption.
Qed.

Lemma find_wallet_by_id_unique (ws : list Wallet) (w : Wallet) :
  NoDup (map wallet_id ws) -> In w ws -> find_wallet_by_id (wallet_id w) ws = Some w.
Proof.
  intros Hnd Hin. unfold find_wallet_by_id.
  destruct (find (fun w' => Nat.eqb (wallet_id w') (wallet_id w)) ws) as [w'|] eqn:Hf.
  - apply find_some in Hf as [Hin' Hid]. apply Nat.eqb_eq in Hid.
    f_equal. exact (NoDup_map_same wallet_id ws w' w Hnd Hin' Hin Hid).
  - exfalso. apply (find_none _ _ Hf) in Hin. rewrite Nat.eqb_refl in Hin. discriminate.
Qed.

Lemma find_wallet_by_user_unique (ws : list Wallet) (w : Wallet) :
  NoDup (map userId ws) -> In w ws -> find_wallet_by_user (userId w) ws = Some w.
Proof.
  intros Hnd Hin. unfold find_wallet_by_user.
  destruct (find (fun w' => Nat.eqb (userId w') (userId w)) ws) as [w'|] eqn:Hf.
  - apply find_some in Hf as [Hin' Hid]. apply Nat.eqb_eq in Hid.
    f_equal. exact (NoDup_map_same userId ws w' w Hnd Hin' Hin Hid).
  - exfalso. apply (find_none _ _ Hf) in Hin. rewrite Nat.eqb_refl in Hin. discriminate.
Qed.

Definition replace_wallet (x y : Wallet) : Wallet :=
  if Nat.eqb (wallet_id y) (wallet_id x) then x else y.

(** Saving a new version of a row (same id and owner) of a store with
    unique wallet ids: looking up by owner sees the new version. *)
Lemma find_user_upsert (u : nat) (w x : Wallet) (ws : list Wallet) :
  NoDup (map wallet_id ws) -> In w ws ->
  wallet_id x = wallet_id w -> userId x = userId w ->
  find_wallet_by_user u (upsert_wallet x ws)
  = option_map (replace_wallet x) (find_wallet_by_user u ws).
Proof.
  intros Hnd Hin Hid Hus. unfold upsert_wallet.
  assert (Hex : existsb (fun w' => Nat.eqb (wallet_id w') (wallet_id x)) ws = true).
  { apply existsb_exists. exists w. split; [exact Hin|]. rewrite Hid. apply Nat.eqb_refl. }
  rewrite Hex. unfold find_wallet_by_user. apply find_map_compat.
  intros a Ha. destruct (Nat.eqb (wallet_id a) (wallet_id x)) eqn:E; [|reflexivity].
  apply Nat.eqb_eq in E. rewrite Hid in E.
  rewrite (NoDup_map_same wallet_id ws a w Hnd Ha Hin E), Hus. reflexivity.
Qed.

Lemma upsert_wallet_ids (x : Wallet) (ws : list Wallet) :
  existsb (fun w' => Nat.eqb (wallet_id w') (wallet_id x)) ws = true ->
  map wallet_id (upsert_wallet x ws) = map wallet_id ws.
Proof.
  intros Hex. unfold upsert_wallet. rewrite Hex, map_map.
  apply map_ext. intros a. destruct (Nat.eqb (wallet_id a) (wallet_id x)) eqn:E; [|reflexivity].
  apply Nat.eqb_eq in E. symmetry. exact E.
Qed.

Lemma In_existsb_id (w : Wallet) (ws : list Wallet) :
  In w ws -> existsb (fun w' => Nat.eqb (wallet_id w') (wallet_id w)) ws = true.
Proof.
  intros Hin. apply existsb_exists. exists w. split; [exact Hin | apply Nat.eqb_refl].
Qed.

Lemma In_upsert_self (x : Wallet) (ws : list Wallet) : In x (upsert_wallet x ws).
Proof.
  unfold upsert_wallet. destruct (existsb _ ws) eqn:Hex.
  - apply existsb_exists in Hex as [a [Ha E]].
    apply in_map_iff. exists a. rewrite E. split; [reflexivity | exact Ha].
  - apply in_or_app. right. left. reflexivity.
Qed.

(** ** Deposit initiation *)

(** X1. [initiateDeposit] fails with [NotFoundException] when the caller
    has no wallet (whatever the amount), and with the minimum-amount error
    for an amount below 100; both leave the store as it was. Otherwise it
    appends exactly one entry, a [PENDING] [DEPOSIT] of the amount on the
    caller's wallet with the generated reference and no metadata, before
    the gateway call: the entry stays and the result is the gateway's,
    also when the gateway call fails. *)
Theorem initiateDeposit_effect (s : Store) (u : User) (a : Q) (r : string)
  (g : HttpError + (string * string)) :
  let res := initiateDeposit s u a r g in
  (find_wallet_by_user (user_id u) (wallets s) = None ->
     res = (inl (NotFoundException "Wallet not found"), s))
  /\ (forall w, find_wallet_by_user (user_id u) (wallets s) = Some w -> a < 100 ->
      res = (inl (BadRequestException "Minimum deposit amount is ₦100"), s))
  /\ (forall w, find_wallet_by_user (user_id u) (wallets s) = Some w -> 100 <= a ->
      fst res = g
      /\ wallets (snd res) = wallets s
      /\ next_txn_id (snd res) = S (next_txn_id s)
      /\ exists t, transactions (snd res) = (transactions s ++ [t])%list
         /\ txn_id t = next_txn_id s /\ walletId t = wallet_id w
         /\ txn_type t = DEPOSIT /\ amount t = a /\ status t = PENDING
         /\ reference t = Some r /\ metadata t = None).
Proof.
  cbv zeta. unfold initiateDeposit.
  destruct (find_wallet_by_user (user_id u) (wallets s)) as [w0|] eqn:Hf.
  - split; [discriminate|]. split.
    + intros w Hw Hlt. apply Qltb_true in Hlt. rewrite Hlt. reflexivity.
    + intros w Hw Hge. injection Hw as <-. apply Qltb_false in Hge. rewrite Hge.
      cbn. split; [reflexivity|]. split; [reflexivity|].
      split; [apply Nat.add_1_r|]. eexists. repeat split.
  - split; [reflexivity|]. split; intros w Hw; discriminate.
Qed.

Lemma deposit_store (s : Store) (u : User) (a : Q) (r : string)
  (g : HttpError + (string * string)) (w : Wallet) :
  find_wallet_by_user (user_id u) (wallets s) = Some w -> 100 <= a ->
  snd (initiateDeposit s u a r g)
  = {| wallets := wallets s;
       transactions := (transactions s ++
         [{| txn_id := next_txn_id s; walletId := wallet_id w; txn_type := DEPOSIT;
             amount := a; status := PENDING; reference := Some r;
             recipientWalletNumber := None; senderWalletNumber := None;
             metadata := None |}])%list;
       next_txn_id := next_txn_id s + 1 |}.
Proof.
  intros Hw Hge. unfold initiateDeposit. rewrite Hw.
  apply Qltb_false in Hge. rewrite Hge. reflexivity.
Qed.

Lemma find_user_some (u : nat) (ws : list Wallet) (w : Wallet) :
  find_wallet_by_user u ws = Some w -> In w ws /\ userId w = u.
Proof.
  intros H. unfold find_wallet_by_user in H. apply find_some in H as [Hin E].
  apply Nat.eqb_eq in E. split; assumption.
Qed.

(** X2. Right after [initiateDeposit] with a reference no entry has yet,
    the caller's [getDepositStatus] for that reference reports the entry:
    [PENDING], the deposited amount, no metadata (in a store whose wallet
    ids are unique). *)
Theorem initiateDeposit_then_status (s : Store) (u : User) (a : Q) (r : string)
  (g : HttpError + (string * string)) (w : Wallet)
  (Hids : unique_wallet_ids s)
  (Hw : find_wallet_by_user (user_id u) (wallets s) = Some w)
  (Hfresh : find_txn_by_reference r (transactions s) = None)
  (Ha : 100 <= a) :
  getDepositStatus (snd (initiateDeposit s u a r g)) u r
  = inr {| ds_reference := Some r; ds_status := PENDING; ds_amount := a;
           ds_metadata := None |}.
Proof.
  rewrite (deposit_store s u a r g w Hw Ha).
  destruct (find_user_some _ _ _ Hw) as [Hin Hown].
  unfold getDepositStatus. simpl.
  unfold find_txn_by_reference in *. rewrite (find_app_single _ _ _ Hfresh).
  cbn. rewrite String.eqb_refl.
  pose proof (find_wallet_by_id_unique _ _ Hids Hin) as Hid.
  unfold find_wallet_by_id in *. cbn. rewrite Hid.
  rewrite Hown, Nat.eqb_refl. reflexivity.
Qed.

Lemma initiateDeposit_then_status_witness :
  getDepositStatus (snd (initiateDeposit store1 alice 5000 "TXN_2_cd"
                           (inr ("TXN_2_cd", "https://checkout.paystack.com/x")))) alice "TXN_2_cd"
  = inr {| ds_reference := Some "TXN_2_cd"; ds_status := PENDING; ds_amount := 5000;
           ds_metadata := None |}.
Proof.
  apply (initiateDeposit_then_status store1 alice 5000 "TXN_2_cd" _ w1).
  - unfold unique_wallet_ids. simpl. repeat constructor; simpl; intuition discriminate.
  - reflexivity.
  - reflexivity.
  - apply Qle_bool_iff. reflexivity.
Defined.

(** ** A deposit from start to end *)



(** ** Transfers seen through [getBalance] *)

Lemma In_upsert_other (a x : Wallet) (ws : list Wallet) :
  In a ws -> wallet_id a <> wallet_id x -> In a (upsert_wallet x ws).
Proof.
  intros Hin Hne. unfold upsert_wallet. destruct (existsb _ ws).
  - apply in_map_iff. exists a. split; [|exact Hin].
    apply Nat.eqb_neq in Hne. rewrite Hne. reflexivity.
  - apply in_or_app. left. exact Hin.
Qed.

Lemma find_user_two_upserts (v : nat) (sw rw sw' rw' : Wallet) (ws : list Wallet) :
  NoDup (map wallet_id ws) -> In sw ws -> In rw ws -> wallet_id sw <> wallet_id rw ->
  wallet_id sw' = wallet_id sw -> userId sw' = userId sw ->
  wallet_id rw' = wallet_id rw -> userId rw' = userId rw ->
  find_wallet_by_user v (upsert_wallet rw' (upsert_wallet sw' ws))
  = option_map (fun y => replace_wallet rw' (replace_wallet sw' y)) (find_wallet_by_user v ws).
Proof.
  intros Hnd Hs Hr Hne Hsi Hsu Hri Hru.
  assert (Hex : existsb (fun w' => Nat.eqb (wallet_id w') (wallet_id sw')) ws = true)
    by (rewrite Hsi; apply In_existsb_id; exact Hs).
  assert (Hnd1 : NoDup (map wallet_id (upsert_wallet sw' ws)))
    by (rewrite (upsert_wallet_ids _ _ Hex); exact Hnd).
  assert (Hr1 : In rw (upsert_wallet sw' ws))
    by (apply In_upsert_other; [exact Hr | rewrite Hsi; congruence]).
  rewrite (find_user_upsert v rw rw' _ Hnd1 Hr1 Hri Hru).
  rewrite (find_user_upsert v sw sw' _ Hnd Hs Hsi Hsu).
  destruct (find_wallet_by_user v ws); reflexivity.
Qed.

(** X4. With unique wallet ids and at most one wallet per user: after a
    [transfer] that fails, the store is the one before; after one that
    succeeds, the sender's [getBalance] shows the old balance minus the
    amount, the recipient wallet's owner sees the old balance plus the
    amount, and every other user sees the same answer as before. *)
Theorem transfer_then_balances (s : Store) (u : User) (dto : TransferDto) (tr : string)
  (Hids : unique_wallet_ids s) (Howners : one_wallet_per_user s) :
  let r := transfer s u dto tr in
  match outcome r with
  | inl _ => committed r = s
  | inr _ =>
    exists sw rw,
      find_wallet_by_user (user_id u) (wallets s) = Some sw
      /\ find_wallet_by_number (wallet_number dto) (wallets s) = Some rw
      /\ getBalance (committed r) u = inr (balance sw - transfer_amount dto, walletNumber sw)
      /\ (forall v, user_id v = userId rw ->
            getBalance (committed r) v = inr (balance rw + transfer_amount dto, walletNumber rw))
      /\ (forall v, user_id v <> user_id u -> user_id v <> userId rw ->
            getBalance (committed r) v = getBalance s v)
  end.
Proof.
  cbv zeta. pose proof (transfer_cases s u dto tr) as H. cbv zeta in H.
  destruct H as [[e [Ho Hc]] | [sw [rw [_ [Hsw [Hrw [Hne [_ [Ho Hws]]]]]]]]].
  { rewrite Ho. exact Hc. }
  rewrite Ho. exists sw, rw. split; [exact Hsw|]. split; [exact Hrw|].
  destruct (find_user_some _ _ _ Hsw) as [Hs Hsu].
  assert (Hr : In rw (wallets s))
    by (unfold find_wallet_by_number in Hrw; apply find_some in Hrw; apply Hrw).
  assert (Hfind : forall v, find_wallet_by_user v (wallets (committed (transfer s u dto tr)))
     = option_map (fun y => replace_wallet (with_balance rw (balance rw + transfer_amount dto))
                              (replace_wallet (with_balance sw (balance sw - transfer_amount dto)) y))
         (find_wallet_by_user v (wallets s)))
    by (intros v; rewrite Hws; apply (find_user_two_upserts v sw rw); auto).
  assert (Hsr : Nat.eqb (wallet_id sw) (wallet_id rw) = false) by (apply Nat.eqb_neq; exact Hne).
  assert (Hrs : Nat.eqb (wallet_id rw) (wallet_id sw) = false)
    by (apply Nat.eqb_neq; congruence).
  split; [|split].
  - unfold getBalance. rewrite Hfind, Hsw. unfold option_map, replace_wallet. cbn.
    rewrite Nat.eqb_refl. cbn. rewrite Hsr. reflexivity.
  - intros v Hv. unfold getBalance. rewrite Hfind, Hv.
    rewrite (find_wallet_by_user_unique _ _ Howners Hr).
    unfold option_map, replace_wallet. cbn. rewrite Hrs, Nat.eqb_refl. reflexivity.
  - intros v Hv1 Hv2. unfold getBalance. rewrite Hfind.
    destruct (find_wallet_by_user (user_id v) (wallets s)) as [y|] eqn:Hy; [|reflexivity].
    destruct (find_user_some _ _ _ Hy) as [Hiny Hyu].
    assert (E1 : Nat.eqb (wallet_id y) (wallet_id sw) = false).
    { apply Nat.eqb_neq. intros E. rewrite (NoDup_map_same _ _ _ _ Hids Hiny Hs E) in Hyu.
      congruence. }
    assert (E2 : Nat.eqb (wallet_id y) (wallet_id rw) = false).
    { apply Nat.eqb_neq. intros E. rewrite (NoDup_map_same _ _ _ _ Hids Hiny Hr E) in Hyu.
      congruence. }
    unfold option_map, replace_wallet. cbn. rewrite E1. cbn. rewrite E2. reflexivity.
Qed.

Lemma transfer_then_balances_witness :
  unique_wallet_ids store0 /\ one_wallet_per_user store0
  /\ let r := transfer store0 alice alice_to_w2 "TRANSFER_1_ab" in
     match outcome r with
     | inl _ => committed r = store0
     | inr _ =>
       exists sw rw,
         find_wallet_by_user (user_id alice) (wallets store0) = Some sw
         /\ find_wallet_by_number (wallet_number alice_to_w2) (wallets store0) = Some rw
         /\ getBalance (committed r) alice
            = inr (balance sw - transfer_amount alice_to_w2, walletNumber sw)
         /\ (forall v, user_id v = userId rw ->
               getBalance (committed r) v
               = inr (balance rw + transfer_amount alice_to_w2, walletNumber rw))
         /\ (forall v, user_id v <> user_id alice -> user_id v <> userId rw ->
               getBalance (committed r) v = getBalance store0 v)
     end.
Proof.
  assert (Hi : unique_wallet_ids store0)
    by (unfold unique_wallet_ids; simpl; repeat constructor; simpl; intuition discriminate).
  assert (Ho : one_wallet_per_user store0)
    by (unfold one_wallet_per_user; simpl; repeat constructor; simpl; intuition discriminate).
  split; [exact Hi|]. split; [exact Ho|].
  exact (transfer_then_balances store0 alice alice_to_w2 "TRANSFER_1_ab" Hi Ho).
Defined.

(** X5. A [transfer] neither adds nor removes wallet rows (their ids keep
    their order) and leaves every wallet other than the caller's and the
    recipient's exactly as it was, whatever its outcome. *)
Theorem transfer_other_wallets (s : Store) (u : User) (dto : TransferDto) (tr : string) :
  let r := transfer s u dto tr in
  map wallet_id (wallets (committed r)) = map wallet_id (wallets s)
  /\ (forall j,
        (forall sw, find_wallet_by_user (user_id u) (wallets s) = Some sw -> wallet_id sw <> j) ->
        (forall rw, find_wallet_by_number (wallet_number dto) (wallets s) = Some rw ->
                    wallet_id rw <> j) ->
        find_wallet_by_id j (wallets (committed r)) = find_wallet_by_id j (wallets s)).
Proof.
  cbv zeta. pose proof (transfer_cases s u dto tr) as H. cbv zeta in H.
  destruct H as [[e [Ho Hc]] | [sw [rw [_ [Hsw [Hrw [Hne [_ [Ho Hws]]]]]]]]].
  { rewrite Hc. split; [reflexivity | intros; reflexivity]. }
  destruct (find_user_some _ _ _ Hsw) as [Hs _].
  assert (Hr : In rw (wallets s))
    by (unfold find_wallet_by_number in Hrw; apply find_some in Hrw; apply Hrw).
  rewrite Hws. split.
  - rewrite upsert_wallet_ids.
    + apply upsert_wallet_ids. exact (In_existsb_id sw _ Hs).
    + exact (In_existsb_id rw _ (In_upsert_other rw (with_balance sw (balance sw - transfer_amount dto)) _ Hr (not_eq_sym Hne))).
  - intros j Hj1 Hj2. rewrite !find_upsert_wallet. cbn [wallet_id with_balance].
    destruct (Nat.eqb (wallet_id rw) j) eqn:E1.
    { apply Nat.eqb_eq in E1. exfalso. exact (Hj2 rw Hrw E1). }
    destruct (Nat.eqb (wallet_id sw) j) eqn:E2.
    { apply Nat.eqb_eq in E2. exfalso. exact (Hj1 sw Hsw E2). }
    reflexivity.
Qed.

(** ** What a webhook event can change *)

Lemma Forall2_diag {A : Type} (R : A -> A -> Prop) (l : list A) :
  (forall a, R a a) -> Forall2 R l l.
Proof. intros HR. induction l; constructor; auto. Qed.

Lemma upsert_txn_Forall2 (x : Transaction) (ts : list Transaction) :
  existsb (fun t' => Nat.eqb (txn_id t') (txn_id x)) ts = true ->
  Forall2 (fun t0 t1 => t0 = t1 \/ (txn_id t0 = txn_id x /\ t1 = x)) ts (upsert_txn x ts).
Proof.
  intros Hex. unfold upsert_txn. rewrite Hex. clear Hex.
  induction ts as [|a ts IH]; simpl; constructor; [|exact IH].
  destruct (Nat.eqb (txn_id a) (txn_id x)) eqn:E; [right | left; reflexivity].
  apply Nat.eqb_eq in E. split; [exact E | reflexivity].
Qed.

Lemma find_txn_In_existsb (r : string) (ts : list Transaction) (t : Transaction) :
  find_txn_by_reference r ts = Some t ->
  existsb (fun t' => Nat.eqb (txn_id t') (txn_id t)) ts = true.
Proof.
  intros H. unfold find_txn_by_reference in H. apply find_some in H as [Hin _].
  apply existsb_exists. exists t. split; [exact Hin | apply Nat.eqb_refl].
Qed.

(** X6. A webhook event adds or removes no wallet row, changes no wallet
    unless the event is [charge.success], and even then changes no wallet
    other than the one of the entry the event's reference names. *)
Theorem webhook_wallet_effect (s : Store) (p : WebhookPayload) (now : string) :
  let r := handlePaystackWebhook s p now in
  map wallet_id (wallets (committed r)) = map wallet_id (wallets s)
  /\ (event p <> "charge.success" -> wallets (committed r) = wallets s)
  /\ (forall j,
        (forall t, find_txn_by_reference (data_reference (data p)) (transactions s) = Some t ->
                   walletId t <> j) ->
        find_wallet_by_id j (wallets (committed r)) = find_wallet_by_id j (wallets s)).
Proof.
  cbv zeta. unfold handlePaystackWebhook.
  destruct (String.eqb (event p) "charge.success") eqn:Es.
  - apply String.eqb_eq in Es.
    rewrite handleSuccessfulCharge_cases.
    destruct (find_txn_by_reference _ (transactions s)) as [t|] eqn:Ht;
      [|cbn; split; [reflexivity | split; [intros; reflexivity | intros; reflexivity]]].
    destruct (status_eqb (status t) SUCCESS);
      [cbn; split; [reflexivity | split; [intros; reflexivity | intros; reflexivity]]|].
    destruct (find_wallet_by_id (walletId t) (wallets s)) as [w|] eqn:Hw;
      [|cbn; split; [reflexivity | split; [intros; reflexivity | intros; reflexivity]]].
    unfold find_wallet_by_id in Hw. apply find_some in Hw as [Hin Ew].
    apply Nat.eqb_eq in Ew. cbn [committed tx_ok wallets].
    split; [|split].
    + apply upsert_wallet_ids. exact (In_existsb_id w _ Hin).
    + intros Hne. contradiction.
    + intros j Hj. rewrite find_upsert_wallet. cbn [wallet_id with_balance].
      destruct (Nat.eqb (wallet_id w) j) eqn:E; [|reflexivity].
      apply Nat.eqb_eq in E. exfalso. apply (Hj t eq_refl). congruence.
  - assert (Hw : wallets (committed (if String.eqb (event p) "charge.failed"
                                     then handleFailedCharge s p now
                                     else {| outcome := inr tt; committed := s;
                                             lock_trace := [] |})) = wallets s).
    { destruct (String.eqb (event p) "charge.failed"); [|reflexivity].
      rewrite handleFailedCharge_cases.
      destruct (find_txn_by_reference _ (transactions s)) as [t|]; [|reflexivity].
      destruct (status_eqb (status t) FAILED); reflexivity. }
    rewrite Hw. split; [reflexivity | split; intros; reflexivity].
Qed.

(** X7. A webhook event creates and deletes no entry and leaves the id
    counter alone: position by position, each entry after the event is the
    one before, or else has the id of the entry that the event's reference
    names and keeps that entry's wallet, type, amount and reference (only
    its status and metadata change). *)
Theorem webhook_entry_effect (s : Store) (p : WebhookPayload) (now : string) :
  let r := handlePaystackWebhook s p now in
  next_txn_id (committed r) = next_txn_id s
  /\ Forall2 (fun t0 t1 =>
       t0 = t1
       \/ exists t, find_txn_by_reference (data_reference (data p)) (transactions s) = Some t
            /\ txn_id t0 = txn_id t /\ txn_id t1 = txn_id t
            /\ walletId t1 = walletId t /\ txn_type t1 = txn_type t
            /\ amount t1 = amount t /\ reference t1 = reference t)
       (transactions s) (transactions (committed r)).
Proof.
  cbv zeta.
  assert (Hsame : forall s', s' = s ->
    next_txn_id s' = next_txn_id s
    /\ Forall2 (fun t0 t1 =>
       t0 = t1
       \/ exists t, find_txn_by_reference (data_reference (data p)) (transactions s) = Some t
            /\ txn_id t0 = txn_id t /\ txn_id t1 = txn_id t
            /\ walletId t1 = walletId t /\ txn_type t1 = txn_type t
            /\ amount t1 = amount t /\ reference t1 = reference t)
       (transactions s) (transactions s')).
  { intros s' ->. split; [reflexivity|]. apply Forall2_diag. intros a. left. reflexivity. }
  assert (Hup : forall t t', find_txn_by_reference (data_reference (data p)) (transactions s) = Some t ->
    txn_id t' = txn_id t -> walletId t' = walletId t -> txn_type t' = txn_type t ->
    amount t' = amount t -> reference t' = reference t ->
    Forall2 (fun t0 t1 =>
       t0 = t1
       \/ exists t, find_txn_by_reference (data_reference (data p)) (transactions s) = Some t
            /\ txn_id t0 = txn_id t /\ txn_id t1 = txn_id t
            /\ walletId t1 = walletId t /\ txn_type t1 = txn_type t
            /\ amount t1 = amount t /\ reference t1 = reference t)
       (transactions s) (upsert_txn t' (transactions s))).
  { intros t t' Ht Hi Hw Hty Ha Hr.
    assert (Hex : existsb (fun t'' => Nat.eqb (txn_id t'') (txn_id t')) (transactions s) = true)
      by (rewrite Hi; exact (find_txn_In_existsb _ _ _ Ht)).
    refine (Forall2_impl _ _ (upsert_txn_Forall2 t' _ Hex)).
    intros t0 t1 [E | [E1 ->]]; [left; exact E | right].
    exists t. repeat split; congruence. }
  unfold handlePaystackWebhook.
  destruct (String.eqb (event p) "charge.success").
  - rewrite handleSuccessfulCharge_cases.
    destruct (find_txn_by_reference _ (transactions s)) as [t|] eqn:Ht; [|apply Hsame; reflexivity].
    destruct (status_eqb (status t) SUCCESS); [apply Hsame; reflexivity|].
    destruct (find_wallet_by_id (walletId t) (wallets s)); [|apply Hsame; reflexivity].
    cbn [committed tx_ok next_txn_id transactions]. split; [reflexivity|].
    apply (Hup t); reflexivity.
  - destruct (String.eqb (event p) "charge.failed"); [|apply Hsame; reflexivity].
    rewrite handleFailedCharge_cases.
    destruct (find_txn_by_reference _ (transactions s)) as [t|] eqn:Ht; [|apply Hsame; reflexivity].
    destruct (status_eqb (status t) FAILED); [apply Hsame; reflexivity|].
    cbn [committed tx_ok next_txn_id transactions]. split; [reflexivity|].
    apply (Hup t); reflexivity.
Qed.

(** ** The transaction history *)

Lemma In_firstn {A : Type} (n : nat) (l : list A) (x : A) : In x (firstn n l) -> In x l.
Proof.
  intros H. rewrite <- (firstn_skipn n l). apply in_or_app. left. exact H.
Qed.

(** X8. [getTransactions], for any store order that only reorders rows:
    without a wallet it fails with [NotFoundException]; otherwise it
    returns at most 50 views, each the view of an entry of the caller's
    wallet, and, when that wallet has at most 50 entries, the view of every
    one of them. *)
Theorem getTransactions_views (order : list Transaction -> list Transaction)
  (Horder : forall l, Permutation (order l) l) (s : Store) (u : User) :
  match getTransactions order s u with
  | inl e => e = NotFoundException "Wallet not found"
             /\ find_wallet_by_user (user_id u) (wallets s) = None
  | inr vs =>
    exists w, find_wallet_by_user (user_id u) (wallets s) = Some w
      /\ (length vs <= 50)%nat
      /\ (forall v, In v vs ->
            exists t, In t (transactions s) /\ walletId t = wallet_id w /\ v = to_view t)
      /\ ((length (filter (fun t => Nat.eqb (walletId t) (wallet_id w)) (transactions s))
           <= 50)%nat ->
          forall t, In t (transactions s) -> walletId t = wallet_id w -> In (to_view t) vs)
  end.
Proof.
  unfold getTransactions.
  destruct (find_wallet_by_user (user_id u) (wallets s)) as [w|] eqn:Hw;
    [|split; reflexivity].
  exists w. split; [reflexivity|].
  set (l := filter (fun t => Nat.eqb (walletId t) (wallet_id w)) (transactions s)).
  split; [|split].
  - rewrite length_map. apply firstn_le_length.
  - intros v Hv. apply in_map_iff in Hv as [t [<- Ht]].
    apply In_firstn in Ht. apply (Permutation_in _ (Horder l)) in Ht.
    apply filter_In in Ht as [Hin E]. apply Nat.eqb_eq in E.
    exists t. split; [exact Hin|]. split; [exact E | reflexivity].
  - intros Hlen t Hin E. apply in_map.
    rewrite firstn_all2 by (rewrite (Permutation_length (Horder l)); exact Hlen).
    apply (Permutation_in _ (Permutation_sym (Horder l))).
    apply filter_In. split; [exact Hin | apply Nat.eqb_eq; exact E].
Qed.

Lemma getTransactions_views_witness :
  (forall l, Permutation (@rev Transaction l) l)
  /\ match getTransactions (@rev Transaction) store1 alice with
     | inl e => e = NotFoundException "Wallet not found"
                /\ find_wallet_by_user (user_id alice) (wallets store1) = None
     | inr vs =>
       exists w, find_wallet_by_user (user_id alice) (wallets store1) = Some w
         /\ (length vs <= 50)%nat
         /\ (forall v, In v vs ->
               exists t, In t (transactions store1) /\ walletId t = wallet_id w
                         /\ v = to_view t)
         /\ ((length (filter (fun t => Nat.eqb (walletId t) (wallet_id w))
                        (transactions store1)) <= 50)%nat ->
             forall t, In t (transactions store1) -> walletId t = wallet_id w ->
                       In (to_view t) vs)
     end.
Proof.
  assert (H : forall l, Permutation (@rev Transaction l) l)
    by (intros l; apply Permutation_sym, Permutation_rev).
  split; [exact H|].
  exact (getTransactions_views (@rev Transaction) H store1 alice).
Defined.

(** X9. After a [charge.failed] event on an entry that is not yet
    [FAILED], the entry as [getTransactions] shows it is [FAILED], and its
    [failure_reason] is the gateway response when that is a non-empty
    string, and null otherwise (also when an earlier event had left one). *)
Theorem charge_failed_view (s : Store) (p : WebhookPayload) (now : string) (t : Transaction)
  (Hev : event p = "charge.failed")
  (Ht : find_txn_by_reference (data_reference (data p)) (transactions s) = Some t)
  (Hst : status t <> FAILED) :
  exists t',
    find_txn_by_reference (data_reference (data p))
      (transactions (committed (handlePaystackWebhook s p now))) = Some t'
    /\ v_status (to_view t') = FAILED
    /\ v_failure_reason (to_view t')
       = match gateway_response (data p) with
         | Some g => if String.eqb g "" then None else Some (MStr g)
         | None => None
         end.
Proof.
  rewrite (event_failed_dispatch s p now Hev), handleFailedCharge_cases, Ht.
  assert (Hne : status_eqb (status t) FAILED = false).
  { destruct (status_eqb (status t) FAILED) eqn:E; [|reflexivity].
    apply status_eqb_true in E. contradiction. }
  rewrite Hne. cbn [committed tx_ok transactions].
  eexists. split.
  { apply (find_txn_upsert_same _ t); [exact Ht | reflexivity | reflexivity]. }
  split; [reflexivity|].
  unfold to_view, failure_metadata. cbn [metadata with_status_metadata v_failure_reason].
  rewrite !lookup_set_key. cbn.
  destruct (gateway_response (data p)) as [g|]; cbn.
  - rewrite lookup_set_key. cbn. destruct (String.eqb g ""); reflexivity.
  - rewrite lookup_remove_key. cbn. reflexivity.
Qed.

Lemma charge_failed_view_witness :
  exists t',
    find_txn_by_reference "TXN_1_ab"
      (transactions (committed (handlePaystackWebhook store1 charge_failed now0))) = Some t'
    /\ v_status (to_view t') = FAILED
    /\ v_failure_reason (to_view t') = Some (MStr "Declined").
Proof.
  apply (charge_failed_view store1 charge_failed now0 pending_deposit).
  - reflexivity.
  - reflexivity.
  - discriminate.
Defined.

(** ** The webhook endpoint *)

(** X10. [WalletController.paystackWebhook]: a request with no (or an
    empty) signature header is refused as missing, one whose signature is
    not the HMAC of the serialised body as invalid, in both cases before
    the handler runs; the store changes only when the signature is the
    HMAC of the body and the handler succeeds, and then the answer is
    [{status: true}]. *)
Theorem paystackWebhook_gate (hmac_sha512_hex : string -> string)
  (stringify : WebhookPayload -> string) (s : Store) (body : WebhookPayload)
  (signature : option string) (now : string) :
  let res := paystackWebhook hmac_sha512_hex stringify s body signature now in
  ((signature = None \/ signature = Some "") ->
     res = (inl (BadRequestException "Missing Paystack signature"), s))
  /\ (forall sg, signature = Some sg -> sg <> "" -> hmac_sha512_hex (stringify body) <> sg ->
        res = (inl (BadRequestException "Invalid Paystack signature"), s))
  /\ (snd res <> s ->
        signature = Some (hmac_sha512_hex (stringify body)) /\ fst res = inr true).
Proof.
  cbv zeta. unfold paystackWebhook, verifyWebhookSignature.
  split; [|split].
  - intros [-> | ->]; reflexivity.
  - intros sg -> Hne Hbad. apply String.eqb_neq in Hne. rewrite Hne. cbn.
    destruct (String.eqb (hmac_sha512_hex (stringify body)) sg) eqn:E; [|reflexivity].
    apply String.eqb_eq in E. contradiction.
  - destruct signature as [sg|]; [|cbn; intros H; contradiction].
    destruct (String.eqb sg "") eqn:Hemp; [cbn; intros H; contradiction|].
    cbn. destruct (String.eqb (hmac_sha512_hex (stringify body)) sg) eqn:E;
      [|cbn; intros H; contradiction].
    apply String.eqb_eq in E. subst sg. cbn.
    destruct (outcome (handlePaystackWebhook s body now)) as [e|] eqn:Ho.
    + intros H. exfalso. apply H. cbn. exact (webhook_failure_rolls_back s body now e Ho).
    + intros _. split; reflexivity.
Qed.

(** X11. A deposit initiated by [initiateDeposit] and then declined by the
    gateway's [charge.failed] event for the same reference leaves the
    caller's [getBalance] as it was before the deposit, and
    [getDepositStatus] reports the entry as [FAILED] with the deposited
    amount (in a store whose wallet ids are unique, the reference fresh). *)
Theorem deposit_then_charge_failed (s : Store) (u : User) (a : Q) (r : string)
  (g : HttpError + (string * string)) (w : Wallet) (p : WebhookPayload) (now : string)
  (Hids : unique_wallet_ids s)
  (Hw : find_wallet_by_user (user_id u) (wallets s) = Some w)
  (Hfresh : find_txn_by_reference r (transactions s) = None)
  (Ha : 100 <= a)
  (Hev : event p = "charge.failed")
  (Href : data_reference (data p) = r) :
  let s1 := snd (initiateDeposit s u a r g) in
  let res := handlePaystackWebhook s1 p now in
  outcome res = inr tt
  /\ getBalance (committed res) u = getBalance s u
  /\ (exists d, getDepositStatus (committed res) u r = inr d
                /\ ds_reference d = Some r /\ ds_status d = FAILED /\ ds_amount d = a).
Proof.
  cbv zeta. rewrite (deposit_store s u a r g w Hw Ha).
  destruct (find_user_some _ _ _ Hw) as [Hin Hown].
  set (t0 := {| txn_id := next_txn_id s; walletId := wallet_id w; txn_type := DEPOSIT;
                amount := a; status := PENDING; reference := Some r;
                recipientWalletNumber := None; senderWalletNumber := None;
                metadata := None |}).
  assert (Hf1 : find_txn_by_reference (data_reference (data p))
                  ((transactions s ++ [t0])%list) = Some t0).
  { rewrite Href. unfold find_txn_by_reference in *.
    rewrite (find_app_single _ _ _ Hfresh). cbn. rewrite String.eqb_refl. reflexivity. }
  rewrite (event_failed_dispatch _ p now Hev), handleFailedCharge_cases. cbn [transactions].
  rewrite Hf1. change (status_eqb (status t0) FAILED) with false.
  cbn [committed tx_ok outcome].
  split; [reflexivity|]. split.
  - unfold getBalance. reflexivity.
  - unfold getDepositStatus. cbn [transactions wallets].
    rewrite <- Href.
    rewrite (find_txn_upsert_same _ t0
               (with_status_metadata t0 FAILED (failure_metadata p now (metadata t0)))
               _ Hf1 eq_refl eq_refl).
    cbn [walletId with_status_metadata]. change (walletId t0) with (wallet_id w).
    rewrite (find_wallet_by_id_unique _ _ Hids Hin), Hown, Nat.eqb_refl. cbn.
    eexists. split; [reflexivity|]. rewrite Href. repeat split.
Qed.

Lemma deposit_then_charge_failed_witness :
  let s1 := snd (initiateDeposit store0 alice 5000 "TXN_2_cd"
                   (inr ("TXN_2_cd", "https://checkout.paystack.com/x"))) in
  let p := {| event := "charge.failed";
              data := {| data_reference := "TXN_2_cd"; data_amount := 500000;
                         gateway_response := Some "Declined" |} |} in
  let res := handlePaystackWebhook s1 p now0 in
  outcome res = inr tt
  /\ getBalance (committed res) alice = getBalance store0 alice
  /\ (exists d, getDepositStatus (committed res) alice "TXN_2_cd" = inr d
                /\ ds_reference d = Some "TXN_2_cd" /\ ds_status d = FAILED
                /\ ds_amount d = 5000).
Proof.
  apply (deposit_then_charge_failed store0 alice 5000 "TXN_2_cd" _ w1).
  - unfold unique_wallet_ids. simpl. repeat constructor; simpl; intuition discriminate.
  - reflexivity.
  - reflexivity.
  - apply Qle_bool_iff. reflexivity.
  - reflexivity.
  - reflexivity.
Defined.
